(** * The TradingView client (src/client.js): routing, authentication, send queue

    A shallow embedding of the [Client] class.  The private fields of the
    class become a record, the methods become computations in a small
    state / trace / exception monad, and everything the client does to the
    outside world (socket writes, console output, observer and session
    handler calls) is recorded, in order, in a trace of effects. *)

From stdpp Require Import gmap strings list pretty.

Open Scope string_scope.
Open Scope list_scope.
Set Warnings "-register-all".

(** ** JavaScript values and the fragment of their semantics the client uses *)

Module JS.

(** A packet is whatever [JSON.parse] produced.  Numbers are the
    integer-valued ones (a ping counter is an integer); a string is a
    sequence of code units, one [ascii] each; an object is the list of
    its own properties, the first entry counting should a key be listed
    twice.  [VUndefined] never occurs inside a parsed document, it is what
    reading a missing property gives. *)
Inductive value : Type :=
| VUndefined
| VNull
| VBool (b : bool)
| VNum (n : Z)
| VStr (s : string)
| VArr (elems : list value)
| VObj (props : list (string * value)).

(** The only exception the modelled code can raise. *)
Inductive exn : Type := TypeError.

Inductive completion (A : Type) : Type :=
| Normal (a : A)
| Throw (e : exn).
Arguments Normal {A} a.
Arguments Throw {A} e.

(** [typeof v === 'number'] *)
Definition is_number (v : value) : bool :=
  match v with VNum _ => true | _ => false end.

(** ToBoolean *)
Definition truthy (v : value) : bool :=
  match v with
  | VUndefined | VNull => false
  | VBool b => b
  | VNum n => negb (n =? 0)%Z
  | VStr s => negb (String.eqb s "")
  | VArr _ | VObj _ => true
  end.

(** [v === s] for a string literal [s] *)
Definition strict_equals_string (v : value) (s : string) : bool :=
  match v with VStr s' => String.eqb s' s | _ => false end.

(** Own property [k] of an object literal, [undefined] when missing. *)
Fixpoint own_property (k : string) (props : list (string * value)) : value :=
  match props with
  | [] => VUndefined
  | (k', v) :: rest => if String.eqb k' k then v else own_property k rest
  end.

Definition has_own_property (k : string) (props : list (string * value)) : bool :=
  existsb (fun kv => String.eqb (fst kv) k) props.

(** [o.k] for a name [k] that is neither an index nor defined on a
    prototype (the client reads [m] and [p]). *)
Definition member (k : string) (o : value) : completion value :=
  match o with
  | VUndefined | VNull => Throw TypeError
  | VObj props => Normal (own_property k props)
  | VBool _ | VNum _ | VStr _ | VArr _ => Normal VUndefined
  end.

(** [o[0]] *)
Definition element0 (o : value) : completion value :=
  match o with
  | VUndefined | VNull => Throw TypeError
  | VArr elems => Normal (match elems with e :: _ => e | [] => VUndefined end)
  | VStr s => Normal (match s with String a _ => VStr (String a "") | EmptyString => VUndefined end)
  | VObj props => Normal (own_property "0" props)
  | VBool _ | VNum _ => Normal VUndefined
  end.

(** Number to string for the safe integers ([safe_integer] below), which
    print in plain decimal; larger numbers print rounded or in exponent
    form and are outside the model, as are fractions. *)
Definition number_to_string (n : Z) : string := pretty n.

(** ToString, as used by ToPropertyKey and by [Array.prototype.join].  An
    object literal prints as [[object Object]] through the inherited
    [toString]; when it has an own property of that name (never callable
    in parsed JSON) the conversion fails. *)
Fixpoint to_string (v : value) : completion string :=
  match v with
  | VUndefined => Normal "undefined"
  | VNull => Normal "null"
  | VBool true => Normal "true"
  | VBool false => Normal "false"
  | VNum n => Normal (number_to_string n)
  | VStr s => Normal s
  | VArr elems =>
      (fix join (l : list value) : completion string :=
         match l with
         | [] => Normal ""
         | e :: l' =>
             let item :=
               match e with
               | VUndefined | VNull => Normal ""
               | _ => to_string e
               end in
             match item with
             | Throw x => Throw x
             | Normal s =>
                 match l' with
                 | [] => Normal s
                 | _ :: _ =>
                     match join l' with
                     | Throw x => Throw x
                     | Normal r => Normal (s +:+ "," +:+ r)
                     end
                 end
             end
         end) elems
  | VObj props =>
      if has_own_property "toString" props then Throw TypeError
      else Normal "[object Object]"
  end.

(** The properties every plain object inherits from [Object.prototype];
    each of them is a truthy value without an [onData] member. *)
Definition object_prototype_names : list string :=
  [ "constructor"; "__defineGetter__"; "__defineSetter__"; "hasOwnProperty";
    "__lookupGetter__"; "__lookupSetter__"; "isPrototypeOf";
    "propertyIsEnumerable"; "toString"; "valueOf"; "__proto__";
    "toLocaleString" ].

Definition inherited_by_plain_object (k : string) : bool :=
  existsb (String.eqb k) object_prototype_names.

End JS.
Export JS.

(** ** Data of the client *)

(** [ClientEvent]: the channels of [#callbacks]. *)
Inductive ClientEvent : Type :=
| connected | disconnected | logged | ping | data | error | event.

#[global] Instance ClientEvent_eq_dec : EqDecision ClientEvent.
Proof. solve_decision. Defined.

Definition ClientEvent_name (ev : ClientEvent) : string :=
  match ev with
  | connected => "connected"
  | disconnected => "disconnected"
  | logged => "logged"
  | ping => "ping"
  | data => "data"
  | error => "error"
  | event => "event"
  end.

(** Observers and session handlers are functions of the embedding
    application.  They are opaque here: each is a name, a call to it is an
    effect in the trace, and it is taken to return normally without
    calling back into the client. *)
Definition callback : Type := nat.

Inductive SessionType : Type := quote | chart | replay.

Record Session : Type := mkSession {
  s_type : SessionType;
  s_onData : callback;
}.

(** [readyState] of the socket. *)
Inductive ReadyState : Type := CONNECTING | OPEN | CLOSING | CLOSED.

#[global] Instance ReadyState_eq_dec : EqDecision ReadyState.
Proof. solve_decision. Defined.

(** What the client does to its environment. *)
Inductive effect : Type :=
| WsSend (packet : string)                              (* this.#ws.send(packet) *)
| WsClose                                               (* this.#ws.close() *)
| ConsoleDebug (args : list value)
| ConsoleError (args : list value)
| Notify (ev : ClientEvent) (cb : callback) (args : list value)
                                                        (* observer cb of channel ev called *)
| SessionOnData (key : string) (s : Session) (parsed : value)
                                                        (* this.#sessions[key].onData(parsed) *)
| MiscGetUser (token signature location : value).       (* misc.getUser(...) started *)

(** The private fields, together with the two pieces of ambient state the
    methods read: the global debug flag and whether the promise returned
    by [misc.getUser] is still unsettled. *)
Record Client : Type := mkClient {
  c_ws : ReadyState;
  c_logged : bool;
  c_sessions : gmap string Session;
  c_callbacks : ClientEvent -> list callback;
  c_sendQueue : list string;
  c_getUser_pending : bool;
  g_TW_DEBUG : bool;
}.

Definition set_ws (r : ReadyState) (c : Client) : Client :=
  mkClient r (c_logged c) (c_sessions c) (c_callbacks c) (c_sendQueue c)
           (c_getUser_pending c) (g_TW_DEBUG c).
Definition set_logged (b : bool) (c : Client) : Client :=
  mkClient (c_ws c) b (c_sessions c) (c_callbacks c) (c_sendQueue c)
           (c_getUser_pending c) (g_TW_DEBUG c).
Definition set_sessions (s : gmap string Session) (c : Client) : Client :=
  mkClient (c_ws c) (c_logged c) s (c_callbacks c) (c_sendQueue c)
           (c_getUser_pending c) (g_TW_DEBUG c).
Definition set_callbacks (f : ClientEvent -> list callback) (c : Client) : Client :=
  mkClient (c_ws c) (c_logged c) (c_sessions c) f (c_sendQueue c)
           (c_getUser_pending c) (g_TW_DEBUG c).
Definition set_sendQueue (q : list string) (c : Client) : Client :=
  mkClient (c_ws c) (c_logged c) (c_sessions c) (c_callbacks c) q
           (c_getUser_pending c) (g_TW_DEBUG c).
Definition set_getUser_pending (b : bool) (c : Client) : Client :=
  mkClient (c_ws c) (c_logged c) (c_sessions c) (c_callbacks c) (c_sendQueue c)
           b (g_TW_DEBUG c).
Definition set_TW_DEBUG (b : bool) (c : Client) : Client :=
  mkClient (c_ws c) (c_logged c) (c_sessions c) (c_callbacks c) (c_sendQueue c)
           (c_getUser_pending c) b.

(** ** The monad of method bodies *)

Definition M (A : Type) : Type := Client -> completion A * Client * list effect.

Definition ret {A} (a : A) : M A := fun c => (Normal a, c, []).

Definition bind {A B} (m : M A) (f : A -> M B) : M B :=
  fun c =>
    match m c with
    | (Normal a, c1, t1) =>
        match f a c1 with
        | (r, c2, t2) => (r, c2, t1 ++ t2)
        end
    | (Throw e, c1, t1) => (Throw e, c1, t1)
    end.

Declare Scope js_scope.
Delimit Scope js_scope with js.
Notation "x <- m ;; k" := (bind m (fun x => k))
  (at level 20, m at level 99, k at level 200) : js_scope.
Notation "m ;; k" := (bind m (fun _ => k))
  (at level 100, k at level 200, right associativity) : js_scope.
Open Scope js_scope.

Definition get : M Client := fun c => (Normal c, c, []).
Definition modify (f : Client -> Client) : M unit := fun c => (Normal tt, f c, []).
Definition emit (e : effect) : M unit := fun c => (Normal tt, c, [e]).
Definition lift {A} (r : completion A) : M A := fun c => (r, c, []).
Definition throw {A} (e : exn) : M A := lift (Throw e).
Definition when (b : bool) (m : M unit) : M unit := if b then m else ret tt.

(** [l.forEach(f)]: an exception in [f] ends the iteration. *)
Fixpoint forEach {A} (l : list A) (f : A -> M unit) : M unit :=
  match l with
  | [] => ret tt
  | x :: l' => f x ;; forEach l' f
  end.

Definition outcome {A} (r : completion A * Client * list effect) : completion A := r.1.1.
Definition final {A} (r : completion A * Client * list effect) : Client := r.1.2.
Definition trace {A} (r : completion A * Client * list effect) : list effect := r.2.

(** ** The socket, as far as the client relies on it *)

(** [get isOpen()] *)
Definition isOpen (c : Client) : bool := bool_decide (c_ws c = OPEN).

(** [get isLogged()] *)
Definition isLogged (c : Client) : bool := c_logged c.

(** [this.#ws.send(packet)]: the call is what is recorded.  The client
    only writes from [sendQueue], which checks [isOpen], and from
    [parsePacket], which checks it at the start of a batch. *)
Definition ws_send (packet : string) : M unit := emit (WsSend packet).

(** [this.#ws.close()]: the socket leaves the open state at once, the
    [close] event follows later as an input of its own. *)
Definition ws_close : M unit :=
  emit WsClose ;;
  modify (fun c => set_ws (match c_ws c with CLOSED => CLOSED | _ => CLOSING end) c).

(** The section sign of the debug banners. *)
Definition sect : string := String (Ascii.ascii_of_nat 167) "".
Definition debug_banner_packet : string :=
  sect +:+ "90" +:+ sect +:+ "30" +:+ sect +:+ "107 CLIENT " +:+ sect +:+ "0 PACKET".
Definition debug_banner_sent : string :=
  sect +:+ "90" +:+ sect +:+ "30" +:+ sect +:+ "107 > " +:+ sect +:+ "0".

(** [if (global.TW_DEBUG) console.debug(...args)] *)
Definition debug (args : list value) : M unit :=
  c <- get ;; when (g_TW_DEBUG c) (emit (ConsoleDebug args)).

(** ** Event dispatch *)

(** [#handleEvent(ev, ...data)] *)
Definition handleEvent (ev : ClientEvent) (data : list value) : M unit :=
  c <- get ;;
  forEach (c_callbacks c ev) (fun e => emit (Notify ev e data)) ;;
  forEach (c_callbacks c event)
          (fun e => emit (Notify event e (VStr (ClientEvent_name ev) :: data))).

(** [#handleError(...msgs)] *)
Definition handleError (msgs : list value) : M unit :=
  c <- get ;;
  if (length (c_callbacks c error) =? 0)%nat then emit (ConsoleError msgs)
  else handleEvent error msgs.

(** [onConnected(cb)], [onDisconnected(cb)], [onLogged(cb)], [onPing(cb)],
    [onData(cb)], [onError(cb)], [onEvent(cb)]: [this.#callbacks.<ev>.push(cb)] *)
Definition on (ev : ClientEvent) (cb : callback) : M unit :=
  modify (fun c =>
    set_callbacks (fun ev' => if decide (ev' = ev) then c_callbacks c ev' ++ [cb]
                              else c_callbacks c ev') c).

Definition onConnected := on connected.
Definition onDisconnected := on disconnected.
Definition onLogged := on logged.
Definition onPing := on ping.
Definition onData := on data.
Definition onError := on error.
Definition onEvent := on event.

(** ** Send queue *)

(** The [while] loop of [sendQueue()].  Every turn removes one entry, so
    the number of entries bounds the number of turns. *)
Fixpoint sendQueue_loop (turns : nat) : M unit :=
  match turns with
  | O => ret tt
  | S turns' =>
      c <- get ;;
      if isOpen c && c_logged c && (0 <? length (c_sendQueue c))%nat then
        match c_sendQueue c with
        | packet :: rest =>
            modify (set_sendQueue rest) ;;           (* this.#sendQueue.shift() *)
            ws_send packet ;;
            debug [VStr debug_banner_sent; VStr packet] ;;
            sendQueue_loop turns'
        | [] => ret tt
        end
      else ret tt
  end.

(** [sendQueue()] *)
Definition sendQueue : M unit :=
  c <- get ;; sendQueue_loop (length (c_sendQueue c)).

(** The loop condition of [sendQueue()]. *)
Definition sendQueue_cond (c : Client) : bool :=
  isOpen c && c_logged c && (0 <? length (c_sendQueue c))%nat.

(** ** The client proper

    [src/protocol.js] (the frame codec), [src/miscRequests.js] (the
    credential exchange) and the session generators are collaborators of
    the class.  The codec is a parameter of the development; the credential
    exchange appears as the effect of starting it and as the two inputs
    that settle its promise; sessions appear through the registry the
    bridge exposes. *)

Section Client.

(** [protocol.formatWSPacket] and [protocol.parseWSPacket] *)
Variable formatWSPacket : value -> string.
Variable parseWSPacket : string -> list value.

(** [this.#sessions[key]]: an own entry, else what a plain object
    inherits, else [undefined]. *)
Inductive lookup_result : Type :=
| OwnSession (s : Session)
| Inherited
| Missing.

Definition sessions_lookup (ss : gmap string Session) (key : string) : lookup_result :=
  match ss !! key with
  | Some s => OwnSession s
  | None => if inherited_by_plain_object key then Inherited else Missing
  end.

(** Lines 178-190: the "normal packet" block.  The result tells whether
    the callback returned from inside the block (the packet went to a
    session) or control falls through to the lines below it. *)
Definition deliver (packet : value) : M bool :=
  m <- lift (member "m" packet) ;;
  p <- lift (member "p" packet) ;;
  if truthy m && truthy p then
    let parsed := VObj [("type", m); ("data", p)] in
    session <- lift (element0 p) ;;
    if truthy session then
      key <- lift (to_string session) ;;
      c <- get ;;
      match sessions_lookup (c_sessions c) key with
      | OwnSession s => emit (SessionOnData key s parsed) ;; ret true
      | Inherited => throw TypeError        (* .onData is not a function *)
      | Missing => ret false
      end
    else ret false
  else ret false.

(** The callback [parsePacket] runs on each decoded packet (lines 164-198). *)
Definition parsePacket_callback (packet : value) : M unit :=
  debug [VStr debug_banner_packet; packet] ;;
  match packet with
  | VNum n =>                                                    (* Ping *)
      ws_send (formatWSPacket (VStr ("~h~" +:+ number_to_string n))) ;;
      handleEvent ping [packet]
  | _ =>
      m <- lift (member "m" packet) ;;
      if strict_equals_string m "protocol_error" then            (* Error *)
        p <- lift (member "p" packet) ;;
        handleError [VStr "Client critical error:"; p] ;;
        ws_close
      else
        delivered <- deliver packet ;;
        if delivered then ret tt
        else
          c <- get ;;
          if negb (c_logged c) then handleEvent logged [packet]
          else handleEvent data [packet]
  end.

(** [#parsePacket(str)] *)
Definition parsePacket (str : string) : M unit :=
  c <- get ;;
  if negb (isOpen c) then ret tt
  else forEach (parseWSPacket str) parsePacket_callback.

(** [send(t, p = [])]; an omitted [p] is [VUndefined]. *)
Definition send (t p : value) : M unit :=
  let p := match p with VUndefined => VArr [] | _ => p end in
  modify (fun c => set_sendQueue
                     (c_sendQueue c ++ [formatWSPacket (VObj [("m", t); ("p", p)])]) c) ;;
  sendQueue.

(** The frame both branches of the constructor put at the head of the queue. *)
Definition auth_frame (authToken : value) : string :=
  formatWSPacket (VObj [("m", VStr "set_auth_token"); ("p", VArr [authToken])]).

(** [this.#sendQueue.unshift(frame); this.#logged = true; this.sendQueue()] *)
Definition enqueue_auth (authToken : value) : M unit :=
  modify (fun c => set_sendQueue (auth_frame authToken :: c_sendQueue c) c) ;;
  modify (set_logged true) ;;
  sendQueue.

(** [ClientOptions]; an option that is not given is [VUndefined].  The
    [server] option and the proxy only configure the socket. *)
Record ClientOptions : Type := mkOptions {
  token : value;
  signature : value;
  location : value;
  DEBUG : value;
}.

(** The field initialisers of the class. *)
Definition fields_init (global_debug : bool) : Client :=
  {| c_ws := CONNECTING;
     c_logged := false;
     c_sessions := ∅;
     c_callbacks := fun _ => [];
     c_sendQueue := [];
     c_getUser_pending := false;
     g_TW_DEBUG := global_debug |}.

(** The body of the constructor up to the registration of the socket
    handlers (which are the inputs [Ws_open] .. [Ws_message] below). *)
Definition constructor_body (clientOptions : ClientOptions) : M unit :=
  when (truthy (DEBUG clientOptions)) (modify (set_TW_DEBUG true)) ;;
  if truthy (token clientOptions) then
    emit (MiscGetUser (token clientOptions)
                      (if truthy (signature clientOptions)
                       then signature clientOptions else VStr "")
                      (location clientOptions)) ;;
    modify (set_getUser_pending true)
  else
    enqueue_auth (VStr "unauthorized_user_token").

Definition constructor (global_debug : bool) (clientOptions : ClientOptions)
  : completion unit * Client * list effect :=
  constructor_body clientOptions (fields_init global_debug).

(** [end()] *)
Definition end_ : M unit :=
  c <- get ;;
  match c_ws c with
  | CONNECTING => ret tt            (* readyState 0 is falsy *)
  | _ => ws_close
  end.

(** Everything that can happen to a constructed client: calls of its
    public methods, changes of the registry through the bridge
    ([sessions[key] = s], [delete sessions[key]]), socket events, and the
    settling of the credential promise.  The promise resolves with a user
    object, of which [authToken] is read, or rejects with an error, of
    which [message] is read.  The registry is a map for every key but
    [__proto__]: an assignment to that key replaces the prototype of the
    object instead of adding an entry, which the model does not follow. *)
Inductive input : Type :=
| Call_send (t p : value)
| Call_sendQueue
| Call_on (ev : ClientEvent) (cb : callback)
| Call_end
| Sessions_set (key : string) (s : Session)
| Sessions_delete (key : string)
| Ws_open
| Ws_close
| Ws_error (err : value)
| Ws_message (str : string)
| GetUser_resolved (authToken : value)
| GetUser_rejected (message : value).

(** The handler of each input.  For [Ws_open] and [Ws_close] the first
    line is the socket's own change of [readyState], made before it emits
    the event; the rest is the handler the constructor registered.  The
    last two are the [then] and [catch] callbacks of the constructor. *)
Definition step (i : input) : M unit :=
  match i with
  | Call_send t p => send t p
  | Call_sendQueue => sendQueue
  | Call_on ev cb => on ev cb
  | Call_end => end_
  | Sessions_set key s => modify (fun c => set_sessions (<[key := s]> (c_sessions c)) c)
  | Sessions_delete key => modify (fun c => set_sessions (delete key (c_sessions c)) c)
  | Ws_open =>
      modify (set_ws OPEN) ;;
      handleEvent connected [] ;;
      sendQueue
  | Ws_close =>
      modify (set_ws CLOSED) ;;
      modify (set_logged false) ;;
      handleEvent disconnected []
  | Ws_error err => handleError [err]
  | Ws_message str => parsePacket str
  | GetUser_resolved authToken =>
      modify (set_getUser_pending false) ;;
      enqueue_auth authToken
  | GetUser_rejected message =>
      modify (set_getUser_pending false) ;;
      handleError [VStr "Credentials error:"; message]
  end.

(** A promise settles once, and only if it was created. *)
Definition can_occur (c : Client) (i : input) : bool :=
  match i with
  | GetUser_resolved _ | GetUser_rejected _ => c_getUser_pending c
  | _ => true
  end.

(** A run of inputs from a state: [None] when some input cannot occur
    where it stands.  An exception escaping a handler leaves the state as
    the handler left it. *)
Fixpoint run (ins : list input) (c : Client) : option (Client * list effect) :=
  match ins with
  | [] => Some (c, [])
  | i :: ins' =>
      if can_occur c i then
        match step i c with
        | (_, c1, t1) =>
            match run ins' c1 with
            | Some (c2, t2) => Some (c2, t1 ++ t2)
            | None => None
            end
        end
      else None
  end.

End Client.

(** ** Reading traces *)

(** The packets written to the socket, in order. *)
Definition writes (t : list effect) : list string :=
  omap (fun e => match e with WsSend p => Some p | _ => None end) t.

(** The session handler calls, in order. *)
Definition session_calls (t : list effect) : list (string * Session * value) :=
  omap (fun e => match e with SessionOnData k s v => Some (k, s, v) | _ => None end) t.

(** The observer calls made for channel [ev] itself (not its mirror on
    the catch-all channel), in order. *)
Definition dispatches (ev : ClientEvent) (t : list effect) : list (callback * list value) :=
  omap (fun e => match e with
                 | Notify ev' cb args => if decide (ev' = ev) then Some (cb, args) else None
                 | _ => None
                 end) t.

Arguments writes : simpl never.
Arguments session_calls : simpl never.
Arguments dispatches : simpl never.

(** The trace of one dispatch on channel [ev]: its observers in the order
    of their registration, then the catch-all observers, which get the
    name of the channel in front of the arguments. *)
Definition dispatch (c : Client) (ev : ClientEvent) (args : list value) : list effect :=
  map (fun cb => Notify ev cb args) (c_callbacks c ev)
  ++ map (fun cb => Notify event cb (VStr (ClientEvent_name ev) :: args)) (c_callbacks c event).

(** What one error report leaves in the trace. *)
Definition report (c : Client) (msgs : list value) : list effect :=
  match c_callbacks c error with
  | [] => [ConsoleError msgs]
  | _ :: _ => dispatch c error msgs
  end.

(** What the debug switch adds. *)
Definition debug_line (c : Client) (args : list value) : list effect :=
  if g_TW_DEBUG c then [ConsoleDebug args] else [].

(** What writing one queue entry leaves in the trace. *)
Definition flush_entry (c : Client) (packet : string) : list effect :=
  WsSend packet :: debug_line c [VStr debug_banner_sent; VStr packet].

(** ** A codec to run the client with *)

Module Protocol.

Definition hex_digit (n : nat) : Ascii.ascii :=
  match String.get n "0123456789abcdef" with
  | Some a => a
  | None => Ascii.zero
  end.

(** One character inside a JSON string literal. *)
Definition escape (a : Ascii.ascii) : string :=
  let n := Ascii.nat_of_ascii a in
  if (n =? 34)%nat then "\" +:+ String a ""
  else if (n =? 92)%nat then "\\"
  else if (n =? 8)%nat then "\b"
  else if (n =? 9)%nat then "\t"
  else if (n =? 10)%nat then "\n"
  else if (n =? 12)%nat then "\f"
  else if (n =? 13)%nat then "\r"
  else if (n <? 32)%nat then
    "\u00" +:+ String (hex_digit (n / 16)) (String (hex_digit (n mod 16)) "")
  else String a "".

Fixpoint escape_all (s : string) : string :=
  match s with
  | EmptyString => ""
  | String a s' => escape a +:+ escape_all s'
  end.

Definition quoted (s : string) : string :=
  String (Ascii.ascii_of_nat 34) (escape_all s) +:+ String (Ascii.ascii_of_nat 34) "".

Definition comma_separated (items : list string) : string :=
  match items with
  | [] => ""
  | s :: rest => fold_left (fun acc x => acc +:+ "," +:+ x) rest s
  end.

(** Modelled from the spec: the serialisation to JSON that [encode]
    starts with (src/protocol.js is not among the sources).  An undefined
    array element prints as [null], a property whose value is undefined is
    left out. *)
Fixpoint stringify (v : value) : string :=
  match v with
  | VUndefined | VNull => "null"
  | VBool true => "true"
  | VBool false => "false"
  | VNum n => number_to_string n
  | VStr s => quoted s
  | VArr elems =>
      "[" +:+ comma_separated
                ((fix items (l : list value) : list string :=
                    match l with
                    | [] => []
                    | e :: l' => stringify e :: items l'
                    end) elems) +:+ "]"
  | VObj props =>
      "{" +:+ comma_separated
                ((fix items (l : list (string * value)) : list string :=
                    match l with
                    | [] => []
                    | (_, VUndefined) :: l' => items l'
                    | (k, e) :: l' => (quoted k +:+ ":" +:+ stringify e) :: items l'
                    end) props) +:+ "}"
  end.

(** Modelled from the spec: [protocol.formatWSPacket] (src/protocol.js is
    not among the sources).  The spec has [encode] serialise a value to
    JSON and wrap it as [~m~<L>~m~<payload>], [L] being the length of the
    payload, and has the pong payload [~h~<n>] wrapped as it is; a
    character counts for one unit of length. *)
Definition formatWSPacket (packet : value) : string :=
  let msg := match packet with VStr s => s | _ => stringify packet end in
  "~m~" +:+ pretty (String.length msg) +:+ "~m~" +:+ msg.

(** A decoder that yields a fixed batch, whatever the text. *)
Definition decodes_to (batch : list value) : string -> list value := fun _ => batch.

End Protocol.

(** ** Sample clients *)

Module Sample.

Definition qs_1 : Session := mkSession quote 100.

(** One observer per channel, named 1 to 7. *)
Definition observers (ev : ClientEvent) : list callback :=
  match ev with
  | connected => [1]
  | disconnected => [2]
  | logged => [3]
  | ping => [4]
  | data => [5]
  | error => [6]
  | event => [7]
  end.

(** An open, authenticated client with session [qs_1] registered. *)
Definition client : Client :=
  {| c_ws := OPEN;
     c_logged := true;
     c_sessions := {[ "qs_1" := qs_1 ]};
     c_callbacks := observers;
     c_sendQueue := [];
     c_getUser_pending := false;
     g_TW_DEBUG := false |}.

(** The message of the routing example: [{m:"qsd", p:["qs_1", {}]}]. *)
Definition qsd : value :=
  VObj [("m", VStr "qsd"); ("p", VArr [VStr "qs_1"; VObj []])].

(** [{m:"protocol_error", p:["bad session"]}] *)
Definition protocol_error : value :=
  VObj [("m", VStr "protocol_error"); ("p", VArr [VStr "bad session"])].

(** A message whose first payload element is the empty string. *)
Definition empty_key : value :=
  VObj [("m", VStr "qsd"); ("p", VArr [VStr ""])].

(** A message whose first payload element names a method every object has. *)
Definition inherited_key : value :=
  VObj [("m", VStr "qsd"); ("p", VArr [VStr "toString"])].


(** A message for no session. *)
Definition unrouted : value :=
  VObj [("m", VStr "series_loading"); ("p", VArr [VStr "cs_9"])].

(** [client], with a session registered under [key] as well. *)
Definition client_with_key (key : string) : Client :=
  set_sessions (<[key := qs_1]> (c_sessions client)) client.

(** [client] without any error observer. *)
Definition client_without_error_observer : Client :=
  set_callbacks (fun ev => match ev with error => [] | _ => observers ev end) client.

Definition anonymous : ClientOptions :=
  mkOptions VUndefined VUndefined VUndefined VUndefined.

Definition with_token : ClientOptions :=
  mkOptions (VStr "sessionid") (VStr "sign") VUndefined VUndefined.

End Sample.

(** ** Vocabulary of the statements *)

Section Vocabulary.

Variable formatWSPacket : value -> string.

(** The queue entry [send(t, p)] makes. *)
Definition send_frame (t p : value) : string :=
  formatWSPacket
    (VObj [("m", t); ("p", match p with VUndefined => VArr [] | _ => p end)]).

(** The queue entries made by the [send] calls of a run, in call order. *)
Fixpoint sent_frames (ins : list input) : list string :=
  match ins with
  | [] => []
  | Call_send t p :: ins' => send_frame t p :: sent_frames ins'
  | _ :: ins' => sent_frames ins'
  end.

(** The reply to ping [n]. *)
Definition pong (n : Z) : string :=
  formatWSPacket (VStr ("~h~" +:+ number_to_string n)).

Definition is_pong (packet : string) : Prop := exists n, packet = pong n.

End Vocabulary.

(** The inputs that settle the credential promise, and the one that
    resolves it. *)
Definition settles (i : input) : bool :=
  match i with GetUser_resolved _ | GetUser_rejected _ => true | _ => false end.

Definition resolves (i : input) : bool :=
  match i with GetUser_resolved _ => true | _ => false end.

(** The state differs from [c] at most in the socket's [readyState]. *)
Definition only_ws_changed (c c' : Client) : Prop := c' = set_ws (c_ws c') c.

(** ** Vocabulary of the lifecycle statements *)

(** The observers a run registers on channel [ev], in call order. *)
Fixpoint registered (ev : ClientEvent) (ins : list input) : list callback :=
  match ins with
  | [] => []
  | Call_on ev' cb :: ins' =>
      if decide (ev' = ev) then cb :: registered ev ins' else registered ev ins'
  | _ :: ins' => registered ev ins'
  end.

(** The registry after the bridge operations of a run. *)
Fixpoint registry_after (ins : list input) (ss : gmap string Session)
  : gmap string Session :=
  match ins with
  | [] => ss
  | Sessions_set key s :: ins' => registry_after ins' (<[key := s]> ss)
  | Sessions_delete key :: ins' => registry_after ins' (delete key ss)
  | _ :: ins' => registry_after ins' ss
  end.

(** The socket has left the open state for good. *)
Definition closing_or_closed (c : Client) : bool :=
  match c_ws c with CLOSING | CLOSED => true | _ => false end.

(** Nothing waits in the queue of a client that is open and authenticated. *)
Definition flushed (c : Client) : Prop :=
  isOpen c && c_logged c = true -> c_sendQueue c = [].

(** The client with the debug switch off. *)
Definition mute (c : Client) : Client := set_TW_DEBUG false c.

(** A trace without its debug lines. *)
Definition quiet (t : list effect) : list effect :=
  omap (fun e => match e with ConsoleDebug _ => None | _ => Some e end) t.

(** A computation on which the debug switch has no bearing but the debug
    lines in the trace: run with the switch off, it ends the same way in
    the same state and leaves the same trace less those lines. *)
Definition debug_transparent {A} (m : M A) : Prop :=
  forall c, m (mute c) = (outcome (m c), mute (final (m c)), quiet (trace (m c))).

Section Timing.

Variable formatWSPacket : value -> string.
Variable parseWSPacket : string -> list value.

(** A socket emits [open] only while it is connecting: the run keeps to
    that when every [Ws_open] in it finds the socket in state CONNECTING. *)
Fixpoint opens_while_connecting (ins : list input) (c : Client) : bool :=
  match ins with
  | [] => true
  | i :: ins' =>
      match i with
      | Ws_open => bool_decide (c_ws c = CONNECTING)
      | _ => true
      end
      && opens_while_connecting ins' (final (step formatWSPacket parseWSPacket i c))
  end.

End Timing.

(** ** Decimal numerals *)

(** The integers each of which is a Number of its own and which the
    template literal and the property-key conversion print in plain
    decimal: [Number.MIN_SAFE_INTEGER] to [Number.MAX_SAFE_INTEGER].  A
    statement that prints a number is made for these. *)
Definition safe_integer (n : Z) : Prop := (- 2 ^ 53 < n < 2 ^ 53)%Z.

(** Reading a decimal numeral, written without reference to the printer:
    digits only, a minus sign in front of a negative number and nowhere
    else, no leading zero, no [-0]. *)
Module Decimal.

Definition digit (a : Ascii.ascii) : option N :=
  let k := Ascii.N_of_ascii a in
  if (48 <=? k)%N && (k <=? 57)%N then Some (k - 48)%N else None.

Fixpoint digits (acc : N) (s : string) : option N :=
  match s with
  | EmptyString => Some acc
  | String a s' =>
      match digit a with
      | Some d => digits (10 * acc + d)%N s'
      | None => None
      end
  end.

Definition natural (s : string) : option N :=
  match s with
  | EmptyString => None
  | String a rest =>
      if (Ascii.N_of_ascii a =? 48)%N
      then match rest with EmptyString => Some 0%N | String _ _ => None end
      else digits 0 s
  end.

Definition read (s : string) : option Z :=
  match s with
  | EmptyString => None
  | String a rest =>
      if (Ascii.N_of_ascii a =? 45)%N
      then match natural rest with
           | Some (Npos p) => Some (Zneg p)
           | _ => None
           end
      else match natural s with
           | Some k => Some (Z.of_N k)
           | None => None
           end
  end.

End Decimal.

(** ** Basic facts about the monad and the dispatcher *)

Lemma forEach_emit {A} (g : A -> effect) (l : list A) (c : Client) :
  forEach l (fun x => emit (g x)) c = (Normal tt, c, map g l).
Proof.
  induction l as [|x l IH]; [reflexivity|].
  simpl. unfold bind at 1. simpl. rewrite IH. reflexivity.
Qed.

Lemma debug_run (args : list value) (c : Client) :
  debug args c = (Normal tt, c, debug_line c args).
Proof. unfold debug, debug_line, bind, get, when. destruct (g_TW_DEBUG c); reflexivity. Qed.

Lemma handleEvent_run (ev : ClientEvent) (args : list value) (c : Client) :
  handleEvent ev args c = (Normal tt, c, dispatch c ev args).
Proof.
  unfold handleEvent, dispatch, bind at 1, get.
  unfold bind. rewrite !forEach_emit. reflexivity.
Qed.

Lemma handleError_run (msgs : list value) (c : Client) :
  handleError msgs c = (Normal tt, c, report c msgs).
Proof.
  unfold handleError, report, bind, get.
  destruct (c_callbacks c error) eqn:E; simpl; [reflexivity|].
  rewrite handleEvent_run. unfold dispatch. rewrite E. reflexivity.
Qed.

Lemma writes_app (t1 t2 : list effect) : writes (t1 ++ t2) = writes t1 ++ writes t2.
Proof. unfold writes. apply omap_app. Qed.

Lemma writes_send (packet : string) (t : list effect) :
  writes (WsSend packet :: t) = packet :: writes t.
Proof. reflexivity. Qed.

Lemma session_calls_send (packet : string) (t : list effect) :
  session_calls (WsSend packet :: t) = session_calls t.
Proof. reflexivity. Qed.

Lemma dispatches_send ev (packet : string) (t : list effect) :
  dispatches ev (WsSend packet :: t) = dispatches ev t.
Proof. reflexivity. Qed.

Lemma writes_dispatch c ev args : writes (dispatch c ev args) = [].
Proof.
  unfold dispatch. rewrite writes_app.
  assert (H : forall g : callback -> effect,
             (forall cb, match g cb with WsSend _ => False | _ => True end) ->
             forall l, writes (map g l) = []).
  { intros g Hg l. induction l as [|x l IH]; [reflexivity|].
    simpl. unfold writes in *. simpl. specialize (Hg x). destruct (g x); try contradiction; exact IH. }
  rewrite !H; [reflexivity| |]; intros cb; exact I.
Qed.

Lemma writes_report c msgs : writes (report c msgs) = [].
Proof.
  unfold report. destruct (c_callbacks c error); [reflexivity|]. apply writes_dispatch.
Qed.

Lemma writes_debug_line c args : writes (debug_line c args) = [].
Proof. unfold debug_line. destruct (g_TW_DEBUG c); reflexivity. Qed.

Lemma writes_flush c q : writes (flat_map (flush_entry c) q) = q.
Proof.
  induction q as [|p q IH]; [reflexivity|].
  simpl. unfold writes in *. simpl. rewrite omap_app.
  fold (writes (debug_line c [VStr debug_banner_sent; VStr p])).
  rewrite writes_debug_line. simpl. f_equal. exact IH.
Qed.

(** ** The send queue *)

Lemma sendQueue_loop_closed (n : nat) (c : Client) :
  isOpen c && c_logged c = false ->
  sendQueue_loop n c = (Normal tt, c, []).
Proof.
  intros H. destruct n; [reflexivity|].
  simpl. unfold bind, get. rewrite H. reflexivity.
Qed.

Lemma sendQueue_loop_open (q : list string) :
  forall (n : nat) (c : Client),
    isOpen c && c_logged c = true ->
    c_sendQueue c = q ->
    length q <= n ->
    sendQueue_loop n c
    = (Normal tt, set_sendQueue [] c, flat_map (flush_entry c) q).
Proof.
  induction q as [|p q IH]; intros n c Hgate Hq Hn.
  - destruct n; simpl.
    + unfold ret. destruct c; simpl in *; subst; reflexivity.
    + unfold bind, get. rewrite Hq. rewrite Hgate. simpl.
      unfold ret. destruct c; simpl in *; subst; reflexivity.
  - destruct n; [simpl in Hn; lia|].
    simpl. unfold bind at 1. unfold get at 1. rewrite Hq. rewrite Hgate. simpl.
    unfold bind at 1. unfold modify at 1.
    unfold bind at 1. unfold ws_send, emit at 1.
    unfold bind at 1. rewrite debug_run.
    rewrite (IH n (set_sendQueue q c)).
    + destruct c; reflexivity.
    + destruct c; exact Hgate.
    + destruct c; reflexivity.
    + simpl in Hn. lia.
Qed.

Lemma sendQueue_run (c : Client) :
  sendQueue c
  = if isOpen c && c_logged c
    then (Normal tt, set_sendQueue [] c, flat_map (flush_entry c) (c_sendQueue c))
    else (Normal tt, c, []).
Proof.
  unfold sendQueue, bind, get.
  destruct (isOpen c && c_logged c) eqn:H.
  - rewrite (sendQueue_loop_open (c_sendQueue c)); auto.
  - rewrite sendQueue_loop_closed; auto.
Qed.

(** The loop of [sendQueue()] always runs to the point where its
    condition fails: the bound on the turns is never what stops it. *)
Lemma sendQueue_exits (c : Client) :
  sendQueue_cond (final (sendQueue c)) = false.
Proof.
  rewrite sendQueue_run. unfold sendQueue_cond.
  destruct (isOpen c && c_logged c) eqn:H; unfold final; simpl.
  - destruct c; simpl. apply andb_false_r.
  - rewrite H. reflexivity.
Qed.

(** ** Routing of one packet *)

Section Routing.

Variable formatWSPacket : value -> string.

Local Abbreviation callback_of := (parsePacket_callback formatWSPacket).

Lemma dispatches_app ev (t1 t2 : list effect) :
  dispatches ev (t1 ++ t2) = dispatches ev t1 ++ dispatches ev t2.
Proof. unfold dispatches. apply omap_app. Qed.

Lemma session_calls_app (t1 t2 : list effect) :
  session_calls (t1 ++ t2) = session_calls t1 ++ session_calls t2.
Proof. unfold session_calls. apply omap_app. Qed.

Lemma dispatches_debug_line ev c args : dispatches ev (debug_line c args) = [].
Proof. unfold debug_line. destruct (g_TW_DEBUG c); reflexivity. Qed.

Lemma session_calls_debug_line c args : session_calls (debug_line c args) = [].
Proof. unfold debug_line. destruct (g_TW_DEBUG c); reflexivity. Qed.

Lemma session_calls_dispatch c ev args : session_calls (dispatch c ev args) = [].
Proof.
  unfold dispatch. rewrite session_calls_app.
  assert (H : forall (e : ClientEvent) (a : list value) (l : list callback),
             session_calls (map (fun cb => Notify e cb a) l) = []).
  { intros e a l. induction l as [|x l IH]; [reflexivity | exact IH]. }
  rewrite !H. reflexivity.
Qed.

Lemma session_calls_report c msgs : session_calls (report c msgs) = [].
Proof.
  unfold report. destruct (c_callbacks c error); [reflexivity|].
  apply session_calls_dispatch.
Qed.

Lemma dispatches_map_same ev args (l : list callback) :
  dispatches ev (map (fun cb => Notify ev cb args) l) = map (fun cb => (cb, args)) l.
Proof.
  induction l as [|x l IH]; [reflexivity|].
  simpl. unfold dispatches in *. simpl. rewrite decide_True by reflexivity.
  simpl. f_equal. exact IH.
Qed.

Lemma dispatches_map_other ev ev' args (l : list callback) :
  ev' <> ev ->
  dispatches ev (map (fun cb => Notify ev' cb args) l) = [].
Proof.
  intros Hne. induction l as [|x l IH]; [reflexivity|].
  simpl. unfold dispatches in *. simpl. rewrite decide_False by exact Hne. exact IH.
Qed.

(** A dispatch on channel [ev'] calls the observers of [ev'] and of the
    catch-all channel, nobody else. *)
Lemma dispatches_dispatch_other c ev ev' args :
  ev' <> ev -> ev <> event ->
  dispatches ev (dispatch c ev' args) = [].
Proof.
  intros H1 H2. unfold dispatch. rewrite dispatches_app.
  rewrite !dispatches_map_other; auto.
Qed.

Lemma dispatches_dispatch_same c ev args :
  ev <> event ->
  dispatches ev (dispatch c ev args) = map (fun cb => (cb, args)) (c_callbacks c ev).
Proof.
  intros H. unfold dispatch. rewrite dispatches_app, dispatches_map_same.
  rewrite dispatches_map_other by auto. apply app_nil_r.
Qed.

Lemma dispatches_report_other c ev msgs :
  ev <> error -> ev <> event ->
  dispatches ev (report c msgs) = [].
Proof.
  intros H1 H2. unfold report. destruct (c_callbacks c error); [reflexivity|].
  apply dispatches_dispatch_other; auto.
Qed.

Lemma callback_ping (n : Z) (c : Client) :
  callback_of (VNum n) c
  = (Normal tt, c,
     debug_line c [VStr debug_banner_packet; VNum n]
     ++ WsSend (formatWSPacket (VStr ("~h~" +:+ number_to_string n)))
        :: dispatch c ping [VNum n]).
Proof.
  unfold parsePacket_callback.
  unfold bind at 1. rewrite debug_run.
  unfold bind, ws_send, emit. rewrite handleEvent_run. reflexivity.
Qed.

Lemma callback_protocol_error (packet m p : value) (c : Client) :
  member "m" packet = Normal m ->
  strict_equals_string m "protocol_error" = true ->
  member "p" packet = Normal p ->
  callback_of packet c
  = (Normal tt,
     set_ws (match c_ws c with CLOSED => CLOSED | _ => CLOSING end) c,
     debug_line c [VStr debug_banner_packet; packet]
     ++ report c [VStr "Client critical error:"; p] ++ [WsClose]).
Proof.
  intros Hm He Hp.
  assert (Hbody :
    (m <- lift (member "m" packet) ;;
     if strict_equals_string m "protocol_error" then
       p <- lift (member "p" packet) ;;
       handleError [VStr "Client critical error:"; p] ;; ws_close
     else
       delivered <- deliver packet ;;
       if delivered then ret tt
       else c <- get ;;
            if negb (c_logged c) then handleEvent logged [packet]
            else handleEvent data [packet]) c
    = (Normal tt,
       set_ws (match c_ws c with CLOSED => CLOSED | _ => CLOSING end) c,
       report c [VStr "Client critical error:"; p] ++ [WsClose])).
  { unfold bind at 1. unfold lift at 1. rewrite Hm, He.
    unfold bind at 1. unfold lift at 1. rewrite Hp.
    unfold bind at 1. rewrite handleError_run.
    unfold ws_close, bind, emit, modify. simpl. reflexivity. }
  unfold parsePacket_callback. unfold bind at 1. rewrite debug_run.
  destruct packet; try (rewrite Hbody; reflexivity).
  simpl in Hm. injection Hm as <-. discriminate He.
Qed.

(** The "normal packet" block never changes the client, and leaves at
    most one effect: the call of the session handler it returned through. *)
Lemma deliver_cases (packet : value) (c : Client) :
  (exists m p session key s,
      member "m" packet = Normal m /\ member "p" packet = Normal p /\
      truthy m = true /\ truthy p = true /\
      element0 p = Normal session /\ truthy session = true /\
      to_string session = Normal key /\ c_sessions c !! key = Some s /\
      deliver packet c
      = (Normal true, c, [SessionOnData key s (VObj [("type", m); ("data", p)])]))
  \/ (deliver packet c = (Normal false, c, []))
  \/ (exists e, deliver packet c = (Throw e, c, [])).
Proof.
  unfold deliver, bind, lift, get, throw, lift, ret, emit, sessions_lookup.
  destruct (member "m" packet) as [m|e] eqn:Hm; [|right; right; eauto].
  destruct (member "p" packet) as [p|e] eqn:Hp; [|right; right; eauto].
  destruct (truthy m) eqn:Tm; simpl; [|right; left; reflexivity].
  destruct (truthy p) eqn:Tp; simpl; [|right; left; reflexivity].
  destruct (element0 p) as [session|e] eqn:Hs; [|right; right; eauto].
  destruct (truthy session) eqn:Ts; simpl; [|right; left; reflexivity].
  destruct (to_string session) as [key|e] eqn:Hk; [|right; right; eauto].
  destruct (c_sessions c !! key) as [s|] eqn:Hl; simpl.
  - left. exists m, p, session, key, s. repeat split; auto.
  - destruct (inherited_by_plain_object key); simpl.
    + right; right; eauto.
    + right; left; reflexivity.
Qed.

(** A packet that is neither a ping nor a protocol error is handled by
    the "normal packet" block and, when that falls through, by the
    [logged] / [data] dispatch. *)
Lemma callback_message (packet m : value) (c : Client) :
  member "m" packet = Normal m ->
  strict_equals_string m "protocol_error" = false ->
  is_number packet = false ->
  callback_of packet c
  = match deliver packet c with
    | (Normal true, c1, t1) =>
        (Normal tt, c1, debug_line c [VStr debug_banner_packet; packet] ++ t1)
    | (Normal false, c1, t1) =>
        (Normal tt, c1,
         debug_line c [VStr debug_banner_packet; packet] ++ t1
         ++ dispatch c1 (if c_logged c1 then data else logged) [packet])
    | (Throw e, c1, t1) =>
        (Throw e, c1, debug_line c [VStr debug_banner_packet; packet] ++ t1)
    end.
Proof.
  intros Hm He Hn.
  assert (Hbody :
    (m <- lift (member "m" packet) ;;
     if strict_equals_string m "protocol_error" then
       p <- lift (member "p" packet) ;;
       handleError [VStr "Client critical error:"; p] ;; ws_close
     else
       delivered <- deliver packet ;;
       if delivered then ret tt
       else c <- get ;;
            if negb (c_logged c) then handleEvent logged [packet]
            else handleEvent data [packet]) c
    = match deliver packet c with
      | (Normal true, c1, t1) => (Normal tt, c1, t1)
      | (Normal false, c1, t1) =>
          (Normal tt, c1, t1 ++ dispatch c1 (if c_logged c1 then data else logged) [packet])
      | (Throw e, c1, t1) => (Throw e, c1, t1)
      end).
  { unfold bind at 1. unfold lift at 1. rewrite Hm, He.
    unfold bind at 1.
    destruct (deliver packet c) as [[[[|]|e] c1] t1]; simpl.
    - unfold ret. rewrite app_nil_r. reflexivity.
    - unfold bind, get. destruct (c_logged c1); simpl; rewrite handleEvent_run; reflexivity.
    - reflexivity. }
  unfold parsePacket_callback. unfold bind at 1. rewrite debug_run.
  destruct packet; try discriminate Hn;
    rewrite Hbody; destruct (deliver _ c) as [[[[|]|e] c1] t1]; reflexivity.
Qed.

(** Calls of session handlers made while routing one packet. *)
Lemma callback_session_calls (packet : value) (c : Client) :
  forall key s parsed,
    In (key, s, parsed) (session_calls (trace (callback_of packet c))) ->
    exists m p session,
      member "m" packet = Normal m /\ member "p" packet = Normal p /\
      strict_equals_string m "protocol_error" = false /\
      truthy m = true /\ truthy p = true /\
      element0 p = Normal session /\ truthy session = true /\
      to_string session = Normal key /\ c_sessions c !! key = Some s /\
      parsed = VObj [("type", m); ("data", p)].
Proof.
  intros key s parsed Hin.
  destruct (is_number packet) eqn:Hn.
  { destruct packet; try discriminate Hn.
    rewrite callback_ping in Hin. unfold trace in Hin. simpl in Hin.
    rewrite session_calls_app, session_calls_debug_line, session_calls_send,
      session_calls_dispatch in Hin.
    destruct Hin. }
  destruct (member "m" packet) as [m|e] eqn:Hm.
  2:{ destruct packet; simpl in Hm; try discriminate Hm;
        unfold parsePacket_callback, bind, lift in Hin; rewrite debug_run in Hin;
        simpl in Hin; unfold trace in Hin; simpl in Hin;
        rewrite app_nil_r, session_calls_debug_line in Hin; destruct Hin. }
  destruct (strict_equals_string m "protocol_error") eqn:He.
  { destruct (member "p" packet) as [p|e] eqn:Hp.
    - rewrite (callback_protocol_error packet m p c Hm He Hp) in Hin.
      unfold trace in Hin. simpl in Hin.
      rewrite !session_calls_app, session_calls_debug_line, session_calls_report in Hin.
      destruct Hin.
    - destruct packet; simpl in Hm, Hp; discriminate. }
  rewrite (callback_message packet m c Hm He Hn) in Hin.
  destruct (deliver_cases packet c) as
    [(m' & p & session & key' & s' & Hm' & Hp & Tm & Tp & Hs & Ts & Hk & Hl & Hd)
    | [Hd | [e Hd]]]; rewrite Hd in Hin; unfold trace in Hin; simpl in Hin.
  - rewrite session_calls_app, session_calls_debug_line in Hin. simpl in Hin.
    destruct Hin as [Heq | []]. injection Heq as <- <- <-.
    rewrite Hm in Hm'. injection Hm' as <-.
    exists m, p, session. repeat split; auto.
  - rewrite session_calls_app, session_calls_debug_line, session_calls_dispatch in Hin.
    destruct Hin.
  - rewrite app_nil_r, session_calls_debug_line in Hin. destruct Hin.
Qed.

End Routing.

(** ** Steps of the client *)

Section Steps.

Variable formatWSPacket : value -> string.
Variable parseWSPacket : string -> list value.

Local Abbreviation callback_of := (parsePacket_callback formatWSPacket).
Local Abbreviation step_of := (step formatWSPacket parseWSPacket).
Local Abbreviation run_of := (run formatWSPacket parseWSPacket).

(** The five ways the routing of one packet can end. *)
Lemma callback_cases (packet : value) (c : Client) :
  let dbg := debug_line c [VStr debug_banner_packet; packet] in
  (exists n, packet = VNum n /\
     callback_of packet c
     = (Normal tt, c, dbg ++ WsSend (pong formatWSPacket n) :: dispatch c ping [packet]))
  \/ (exists p,
     callback_of packet c
     = (Normal tt, set_ws (match c_ws c with CLOSED => CLOSED | _ => CLOSING end) c,
        dbg ++ report c [VStr "Client critical error:"; p] ++ [WsClose]))
  \/ (exists key s parsed,
     callback_of packet c = (Normal tt, c, dbg ++ [SessionOnData key s parsed]))
  \/ (callback_of packet c
      = (Normal tt, c, dbg ++ dispatch c (if c_logged c then data else logged) [packet]))
  \/ (exists e, callback_of packet c = (Throw e, c, dbg)).
Proof.
  intros dbg.
  destruct (is_number packet) eqn:Hn.
  { destruct packet; try discriminate Hn. left. eexists. split; [reflexivity|].
    apply callback_ping. }
  destruct (member "m" packet) as [m|e] eqn:Hm.
  2:{ right; right; right; right. exists e.
      destruct packet; simpl in Hm; try discriminate Hm;
        unfold parsePacket_callback, bind, lift; rewrite debug_run; simpl;
        rewrite app_nil_r; injection Hm as <-; reflexivity. }
  destruct (strict_equals_string m "protocol_error") eqn:He.
  { destruct (member "p" packet) as [p|e] eqn:Hp.
    - right; left. exists p. apply (callback_protocol_error _ packet m p c Hm He Hp).
    - destruct packet; simpl in Hm, Hp; discriminate. }
  rewrite (callback_message _ packet m c Hm He Hn).
  destruct (deliver_cases packet c) as
    [(m' & p & session & key & s & _ & _ & _ & _ & _ & _ & _ & _ & Hd)
    | [Hd | [e Hd]]]; rewrite Hd.
  - right; right; left. eauto.
  - right; right; right; left. reflexivity.
  - right; right; right; right. exists e. rewrite app_nil_r. reflexivity.
Qed.

Lemma only_ws_changed_refl c : only_ws_changed c c.
Proof. unfold only_ws_changed. destruct c; reflexivity. Qed.

Lemma only_ws_changed_trans c1 c2 c3 :
  only_ws_changed c1 c2 -> only_ws_changed c2 c3 -> only_ws_changed c1 c3.
Proof.
  unfold only_ws_changed. intros H12 H23. rewrite H23. rewrite H12.
  destruct c1; reflexivity.
Qed.

Lemma only_ws_changed_set w c : only_ws_changed c (set_ws w c).
Proof. unfold only_ws_changed. destruct c; reflexivity. Qed.

(** Routing one packet changes nothing but the socket state, and writes
    nothing to the socket but a pong. *)
Lemma callback_frame (packet : value) (c : Client) :
  only_ws_changed c (final (callback_of packet c))
  /\ Forall (is_pong formatWSPacket) (writes (trace (callback_of packet c))).
Proof.
  destruct (callback_cases packet c) as
    [(n & -> & H) | [(p & H) | [(key & s & parsed & H) | [H | (e & H)]]]];
    rewrite H; unfold final, trace; simpl;
    rewrite ?writes_app, ?writes_debug_line, ?writes_report; simpl.
  - split; [apply only_ws_changed_refl|].
    rewrite writes_send.
    rewrite writes_dispatch. constructor; [eexists; reflexivity | constructor].
  - split; [apply only_ws_changed_set | constructor].
  - split; [apply only_ws_changed_refl | constructor].
  - split; [apply only_ws_changed_refl|]. rewrite writes_dispatch. constructor.
  - split; [apply only_ws_changed_refl | constructor].
Qed.

Lemma forEach_callback_frame (batch : list value) :
  forall c,
    only_ws_changed c (final (forEach batch callback_of c))
    /\ Forall (is_pong formatWSPacket) (writes (trace (forEach batch callback_of c))).
Proof.
  induction batch as [|packet batch IH]; intros c.
  - simpl. split; [apply only_ws_changed_refl | constructor].
  - simpl. unfold bind.
    destruct (callback_frame packet c) as [Hs Hw].
    destruct (callback_of packet c) as [[[[]|e] c1] t1]; unfold final, trace in *; simpl in *.
    + destruct (IH c1) as [Hs' Hw'].
      destruct (forEach batch callback_of c1) as [[r c2] t2]; simpl in *.
      split; [eapply only_ws_changed_trans; eauto|].
      rewrite writes_app. apply Forall_app; auto.
    + split; auto.
Qed.

Lemma parsePacket_frame (str : string) (c : Client) :
  only_ws_changed c (final (parsePacket formatWSPacket parseWSPacket str c))
  /\ Forall (is_pong formatWSPacket)
            (writes (trace (parsePacket formatWSPacket parseWSPacket str c))).
Proof.
  unfold parsePacket, bind, get. destruct (isOpen c); simpl.
  - pose proof (forEach_callback_frame (parseWSPacket str) c) as [Hs Hw].
    destruct (forEach (parseWSPacket str) callback_of c) as [[r c2] t2].
    unfold final, trace in *; simpl in *. auto.
  - split; [apply only_ws_changed_refl | constructor].
Qed.

End Steps.

(** ** The client before authentication *)

Section Unauthenticated.

Variable formatWSPacket : value -> string.
Variable parseWSPacket : string -> list value.

Local Abbreviation step_of := (step formatWSPacket parseWSPacket).
Local Abbreviation run_of := (run formatWSPacket parseWSPacket).
Local Abbreviation frames_of := (sent_frames formatWSPacket).

(** Most facts about a step are read off the fields of the client. *)
Ltac by_fields c := destruct c; simpl in *; repeat split; auto.

Lemma send_run (t p : value) (c : Client) :
  send formatWSPacket t p c
  = let q := c_sendQueue c ++ [send_frame formatWSPacket t p] in
    if isOpen c && c_logged c
    then (Normal tt, set_sendQueue [] c, flat_map (flush_entry c) q)
    else (Normal tt, set_sendQueue q c, []).
Proof.
  unfold send, bind, modify. rewrite sendQueue_run.
  destruct c as [ws lg ss cbs q pend dbg]; simpl.
  unfold isOpen; simpl. destruct (bool_decide (ws = OPEN) && lg); reflexivity.
Qed.

Lemma enqueue_auth_run (authToken : value) (c : Client) :
  enqueue_auth formatWSPacket authToken c
  = let q := auth_frame formatWSPacket authToken :: c_sendQueue c in
    if isOpen c
    then (Normal tt, set_sendQueue [] (set_logged true c), flat_map (flush_entry c) q)
    else (Normal tt, set_sendQueue q (set_logged true c), []).
Proof.
  unfold enqueue_auth, bind, modify. rewrite sendQueue_run.
  destruct c as [ws lg ss cbs q pend dbg]; simpl.
  unfold isOpen; simpl. destruct (bool_decide (ws = OPEN)); reflexivity.
Qed.

Lemma step_pending (i : input) (c : Client) :
  c_getUser_pending (final (step_of i c))
  = if settles i then false else c_getUser_pending c.
Proof.
  destruct i; unfold step; simpl.
  - rewrite send_run. simpl. destruct (isOpen c && c_logged c); destruct c; reflexivity.
  - rewrite sendQueue_run. destruct (isOpen c && c_logged c); destruct c; reflexivity.
  - destruct c; reflexivity.
  - unfold end_, bind, get, ws_close, bind, emit, modify.
    destruct c as [[] lg ss cbs q pend dbg]; reflexivity.
  - destruct c; reflexivity.
  - destruct c; reflexivity.
  - unfold bind. unfold modify at 1. rewrite handleEvent_run, sendQueue_run.
    destruct (isOpen (set_ws OPEN c) && c_logged (set_ws OPEN c)); destruct c; reflexivity.
  - unfold bind, modify. rewrite handleEvent_run. destruct c; reflexivity.
  - rewrite handleError_run. reflexivity.
  - destruct (parsePacket_frame formatWSPacket parseWSPacket str c) as [H _].
    rewrite H. destruct c; reflexivity.
  - unfold bind. unfold modify at 1. rewrite enqueue_auth_run. simpl.
    destruct (isOpen (set_getUser_pending false c)); destruct c; reflexivity.
  - unfold bind. unfold modify at 1. rewrite handleError_run. destruct c; reflexivity.
Qed.

(** While the client is not authenticated, a step that is not the
    resolution of the credential exchange leaves it unauthenticated,
    removes nothing from the queue, appends the frame of a [send], and
    writes nothing to the socket except pongs. *)
Lemma step_unauthenticated (i : input) (c : Client) :
  c_logged c = false ->
  resolves i = false ->
  c_logged (final (step_of i c)) = false
  /\ c_sendQueue (final (step_of i c)) = c_sendQueue c ++ frames_of [i]
  /\ Forall (is_pong formatWSPacket) (writes (trace (step_of i c))).
Proof.
  intros Hl Hr.
  assert (Hgate : forall w, isOpen (set_ws w c) && c_logged (set_ws w c) = false).
  { intros w. destruct c; simpl in *. rewrite Hl. apply andb_false_r. }
  assert (Hgate0 : isOpen c && c_logged c = false).
  { rewrite Hl. apply andb_false_r. }
  destruct i; try discriminate Hr; unfold step; simpl; rewrite ?app_nil_r.
  - rewrite send_run. simpl. rewrite Hgate0. unfold final, trace; simpl.
    by_fields c.
  - rewrite sendQueue_run, Hgate0. unfold final, trace; simpl. repeat split; auto.
  - unfold on, modify, final, trace; simpl. by_fields c.
  - unfold end_, bind, get, ws_close, bind, emit, modify, final, trace.
    destruct c as [[] lg ss cbs q pend dbg]; simpl in *; repeat split; auto.
  - unfold modify, final, trace; simpl. by_fields c.
  - unfold modify, final, trace; simpl. by_fields c.
  - unfold bind, modify. rewrite handleEvent_run, sendQueue_run, Hgate.
    unfold final, trace; simpl. rewrite app_nil_r, writes_dispatch.
    by_fields c.
  - unfold bind, modify. rewrite handleEvent_run. unfold final, trace; simpl.
    rewrite writes_dispatch. by_fields c.
  - rewrite handleError_run. unfold final, trace; simpl. rewrite writes_report.
    repeat split; auto.
  - destruct (parsePacket_frame formatWSPacket parseWSPacket str c) as [H Hw].
    repeat split; auto; rewrite H; destruct c; simpl in *; auto.
  - unfold bind, modify. rewrite handleError_run.
    unfold final, trace; simpl. rewrite writes_report.
    by_fields c.
Qed.

Lemma run_app (ins1 ins2 : list input) :
  forall c,
    run_of (ins1 ++ ins2) c
    = match run_of ins1 c with
      | Some (c1, t1) =>
          match run_of ins2 c1 with
          | Some (c2, t2) => Some (c2, t1 ++ t2)
          | None => None
          end
      | None => None
      end.
Proof.
  induction ins1 as [|i ins1 IH]; intros c; simpl.
  - destruct (run_of ins2 c) as [[c2 t2]|]; reflexivity.
  - destruct (can_occur c i); [|reflexivity].
    destruct (step_of i c) as [[r c1] t1]. rewrite IH.
    destruct (run_of ins1 c1) as [[c1' t1']|]; [|reflexivity].
    destruct (run_of ins2 c1') as [[c2 t2]|]; [|reflexivity].
    rewrite app_assoc. reflexivity.
Qed.

Lemma frames_of_app (ins1 ins2 : list input) :
  frames_of (ins1 ++ ins2) = frames_of ins1 ++ frames_of ins2.
Proof.
  induction ins1 as [|i ins1 IH]; [reflexivity|].
  destruct i; simpl; rewrite IH; reflexivity.
Qed.

Lemma frames_of_cons (i : input) (ins : list input) :
  frames_of (i :: ins) = frames_of [i] ++ frames_of ins.
Proof. destruct i; reflexivity. Qed.

(** Once the exchange has settled without authenticating the client, no
    run authenticates it. *)
Lemma run_settled_unauthenticated (ins : list input) :
  forall c c' t,
    c_logged c = false ->
    c_getUser_pending c = false ->
    run_of ins c = Some (c', t) ->
    c_logged c' = false
    /\ c_getUser_pending c' = false
    /\ c_sendQueue c' = c_sendQueue c ++ frames_of ins
    /\ Forall (is_pong formatWSPacket) (writes t).
Proof.
  induction ins as [|i ins IH]; intros c c' t Hl Hp Hrun; simpl in Hrun.
  - injection Hrun as <- <-. rewrite app_nil_r. repeat split; auto.
  - destruct (can_occur c i) eqn:Hc; [|discriminate].
    assert (Hr : resolves i = false).
    { destruct i; try reflexivity. simpl in Hc. congruence. }
    destruct (step_unauthenticated i c Hl Hr) as (Hl1 & Hq1 & Hw1).
    pose proof (step_pending i c) as Hp1.
    destruct (step_of i c) as [[r c1] t1]. unfold final, trace in *; simpl in *.
    destruct (run_of ins c1) as [[c2 t2]|] eqn:Hrest; [|discriminate].
    injection Hrun as <- <-.
    assert (Hp1' : c_getUser_pending c1 = false).
    { rewrite Hp1, Hp. destruct (settles i); reflexivity. }
    destruct (IH c1 c2 t2 Hl1 Hp1' Hrest) as (Hl2 & Hp2 & Hq2 & Hw2).
    repeat split; auto.
    + rewrite Hq2, Hq1, <- app_assoc. f_equal. exact (eq_sym (frames_of_cons i ins)).
    + rewrite writes_app. apply Forall_app; auto.
Qed.

(** While the exchange is unsettled the client is not authenticated. *)
Lemma run_pending_unauthenticated (ins : list input) :
  forall c c' t,
    c_logged c = false ->
    run_of ins c = Some (c', t) ->
    c_getUser_pending c' = true ->
    c_logged c' = false
    /\ c_getUser_pending c = true
    /\ c_sendQueue c' = c_sendQueue c ++ frames_of ins
    /\ Forall (is_pong formatWSPacket) (writes t).
Proof.
  induction ins as [|i ins IH]; intros c c' t Hl Hrun Hp'; simpl in Hrun.
  - injection Hrun as <- <-. rewrite app_nil_r. repeat split; auto.
  - destruct (can_occur c i) eqn:Hc; [|discriminate].
    pose proof (step_pending i c) as Hp1.
    destruct (settles i) eqn:Hs.
    { (* the exchange settled: it cannot be pending afterwards *)
      exfalso.
      destruct (step_of i c) as [[r c1] t1]. unfold final in *; simpl in *.
      destruct (run_of ins c1) as [[c2 t2]|] eqn:Hrest; [|discriminate].
      injection Hrun as <- <-.
      clear IH. revert c1 c2 t2 Hp1 Hrest Hp'.
      induction ins as [|j ins IHins]; intros c1 c2 t2 Hp1 Hrest Hp'; simpl in Hrest.
      - injection Hrest as <- <-. congruence.
      - destruct (can_occur c1 j) eqn:Hcj; [|discriminate].
        pose proof (step_pending j c1) as Hpj.
        destruct (step_of j c1) as [[rj cj] tj]. unfold final in *; simpl in *.
        destruct (run_of ins cj) as [[ck tk]|] eqn:Hrest'; [|discriminate].
        injection Hrest as <- <-.
        apply (IHins cj ck tk); auto.
        rewrite Hpj, Hp1. destruct (settles j); reflexivity. }
    assert (Hr : resolves i = false) by (destruct i; simpl in *; congruence).
    destruct (step_unauthenticated i c Hl Hr) as (Hl1 & Hq1 & Hw1).
    destruct (step_of i c) as [[r c1] t1]. unfold final, trace in *; simpl in *.
    destruct (run_of ins c1) as [[c2 t2]|] eqn:Hrest; [|discriminate].
    injection Hrun as <- <-.
    destruct (IH c1 c2 t2 Hl1 Hrest Hp') as (Hl2 & Hp2 & Hq2 & Hw2).
    repeat split; auto.
    + congruence.
    + rewrite Hq2, Hq1, <- app_assoc. f_equal. exact (eq_sym (frames_of_cons i ins)).
    + rewrite writes_app. apply Forall_app; auto.
Qed.

Lemma constructor_run (global_debug : bool) (clientOptions : ClientOptions) :
  constructor formatWSPacket global_debug clientOptions
  = let dbg := global_debug || truthy (DEBUG clientOptions) in
    if truthy (token clientOptions) then
      (Normal tt,
       mkClient CONNECTING false ∅ (fun _ => []) [] true dbg,
       [MiscGetUser (token clientOptions)
                    (if truthy (signature clientOptions)
                     then signature clientOptions else VStr "")
                    (location clientOptions)])
    else
      (Normal tt,
       mkClient CONNECTING true ∅ (fun _ => [])
                [auth_frame formatWSPacket (VStr "unauthorized_user_token")] false dbg,
       []).
Proof.
  unfold constructor, constructor_body, fields_init.
  unfold bind at 1. unfold when, modify at 1, ret.
  destruct (truthy (DEBUG clientOptions)); destruct (truthy (token clientOptions)); simpl;
    rewrite ?enqueue_auth_run; simpl; unfold bind, emit, modify; simpl;
    rewrite ?orb_true_r, ?orb_false_r; reflexivity.
Qed.

End Unauthenticated.

(** ** Numbers in print *)

Lemma digit_pretty_N_char (d : N) :
  (d < 10)%N -> Decimal.digit (pretty_N_char d) = Some d.
Proof.
  intros Hd.
  assert (d = 0 \/ d = 1 \/ d = 2 \/ d = 3 \/ d = 4 \/ d = 5 \/ d = 6 \/ d = 7
          \/ d = 8 \/ d = 9)%N as H by lia.
  repeat (destruct H as [-> | H]; [reflexivity|]). subst d. reflexivity.
Qed.

Lemma pretty_N_char_not_zero (d : N) :
  (0 < d < 10)%N -> (Ascii.N_of_ascii (pretty_N_char d) =? 48)%N = false.
Proof.
  intros Hd.
  assert (d = 1 \/ d = 2 \/ d = 3 \/ d = 4 \/ d = 5 \/ d = 6 \/ d = 7
          \/ d = 8 \/ d = 9)%N as H by lia.
  repeat (destruct H as [-> | H]; [reflexivity|]). subst d. reflexivity.
Qed.

Lemma pretty_N_char_not_minus (d : N) :
  (Ascii.N_of_ascii (pretty_N_char d) =? 45)%N = false.
Proof. unfold pretty_N_char. repeat case_match; reflexivity. Qed.

(** The digits of a positive number, printed in front of [s]: they start
    with a digit that is not zero, and read back to the number. *)
Lemma digits_pretty_N_go (x : N) :
  (0 < x)%N ->
  forall s,
    exists (w : N) (a : Ascii.ascii) (rest : string),
      pretty_N_go x s = String a rest
      /\ (Ascii.N_of_ascii a =? 48)%N = false
      /\ (Ascii.N_of_ascii a =? 45)%N = false
      /\ forall acc, Decimal.digits acc (pretty_N_go x s) = Decimal.digits (acc * w + x) s.
Proof.
  induction (N.lt_wf_0 x) as [x _ IH]. intros Hx s.
  rewrite pretty_N_go_step by exact Hx.
  assert (Hmod : (x `mod` 10 < 10)%N) by (apply N.mod_lt; lia).
  assert (Hdm : (x = 10 * (x `div` 10) + x `mod` 10)%N) by (apply N.div_mod; lia).
  destruct (decide (x < 10)%N) as [Hsmall | Hbig].
  - assert (Hq : (x `div` 10 = 0)%N) by (apply N.div_small; exact Hsmall).
    assert (Hr : (x `mod` 10 = x)%N) by (apply N.mod_small; exact Hsmall).
    rewrite Hq, Hr, pretty_N_go_0.
    exists 10%N, (pretty_N_char x), s.
    split; [reflexivity|]. split; [apply pretty_N_char_not_zero; lia|].
    split; [apply pretty_N_char_not_minus|].
    intros acc. simpl. rewrite digit_pretty_N_char by exact Hsmall.
    f_equal. lia.
  - assert (Hq : (0 < x `div` 10)%N) by (apply N.div_str_pos; lia).
    assert (Hlt : (x `div` 10 < x)%N) by (apply N.div_lt; lia).
    destruct (IH (x `div` 10)%N Hlt Hq (String (pretty_N_char (x `mod` 10)) s))
      as (w & a & rest & Heq & Hz & Hm & Hread).
    exists (10 * w)%N, a, rest.
    split; [exact Heq|]. split; [exact Hz|]. split; [exact Hm|].
    intros acc. rewrite Hread. simpl. rewrite digit_pretty_N_char by exact Hmod.
    f_equal. lia.
Qed.

Lemma natural_pretty_N (x : N) : Decimal.natural (pretty x) = Some x.
Proof.
  unfold pretty, pretty_N. destruct (decide (x = 0%N)) as [-> | Hx]; [reflexivity|].
  destruct (digits_pretty_N_go x ltac:(lia) "") as (w & a & rest & Heq & Hz & _ & Hread).
  specialize (Hread 0%N). rewrite Heq in Hread |- *.
  unfold Decimal.natural. rewrite Hz, Hread. reflexivity.
Qed.

Lemma pretty_N_not_minus (x : N) :
  exists a rest, pretty x = String a rest /\ (Ascii.N_of_ascii a =? 45)%N = false.
Proof.
  unfold pretty, pretty_N. destruct (decide (x = 0%N)) as [-> | Hx].
  - exists (Ascii.ascii_of_nat 48), "". split; reflexivity.
  - destruct (digits_pretty_N_go x ltac:(lia) "") as (w & a & rest & Heq & _ & Hm & _).
    eauto.
Qed.

(** What the model prints for a number reads back to that number. *)
Lemma read_number_to_string (n : Z) : Decimal.read (number_to_string n) = Some n.
Proof.
  unfold number_to_string, pretty, pretty_Z. destruct n as [|p|p].
  - reflexivity.
  - change (pretty p) with (pretty (Npos p)).
    destruct (pretty_N_not_minus (Npos p)) as (a & rest & Heq & Hm).
    pose proof (natural_pretty_N (Npos p)) as Hnat.
    rewrite Heq in Hnat |- *. unfold Decimal.read. rewrite Hm, Hnat. reflexivity.
  - change (pretty p) with (pretty (Npos p)).
    change ("-" +:+ pretty (N.pos p)) with (String (Ascii.ascii_of_nat 45) (pretty (N.pos p))).
    unfold Decimal.read.
    change (Ascii.N_of_ascii (Ascii.ascii_of_nat 45) =? 45)%N with true. simpl.
    rewrite natural_pretty_N. reflexivity.
Qed.

Lemma digit_inv (a : Ascii.ascii) (d : N) :
  Decimal.digit a = Some d -> (d < 10)%N /\ pretty_N_char d = a.
Proof.
  destruct a as [[] [] [] [] [] [] [] []]; vm_compute; intros H;
    try discriminate H; injection H as <-; split; reflexivity.
Qed.

Lemma pretty_N_go_digits (s : string) :
  forall (acc x : N) (t : string),
    (0 < acc)%N ->
    Decimal.digits acc s = Some x ->
    pretty_N_go x t = pretty_N_go acc (s +:+ t).
Proof.
  induction s as [|a s IH]; intros acc x t Hacc Hread; simpl in Hread.
  - injection Hread as <-. reflexivity.
  - destruct (Decimal.digit a) as [d|] eqn:Hd; [|discriminate].
    destruct (digit_inv a d Hd) as [Hlt Hchar].
    rewrite (IH (10 * acc + d)%N x t ltac:(lia) Hread).
    rewrite pretty_N_go_step by lia.
    replace ((10 * acc + d) `div` 10)%N with acc
      by (apply N.div_unique with d; lia).
    replace ((10 * acc + d) `mod` 10)%N with d
      by (apply N.mod_unique with acc; lia).
    rewrite Hchar. reflexivity.
Qed.

Lemma natural_unique (s : string) (x : N) :
  Decimal.natural s = Some x -> s = pretty x.
Proof.
  destruct s as [|a rest]; [discriminate|]. unfold Decimal.natural.
  destruct (Ascii.N_of_ascii a =? 48)%N eqn:Hz.
  - destruct rest; [|discriminate]. intros [= <-].
    apply N.eqb_eq in Hz.
    rewrite <- (Ascii.ascii_N_embedding a), Hz. reflexivity.
  - simpl. destruct (Decimal.digit a) as [d|] eqn:Hd; [|discriminate].
    destruct (digit_inv a d Hd) as [Hlt Hchar].
    assert (Hpos : (0 < d)%N).
    { destruct (decide (d = 0%N)) as [-> | ?]; [|lia].
      subst a. discriminate Hz. }
    intros Hread. replace (10 * 0 + d)%N with d in Hread by lia.
    assert (Hx : x <> 0%N).
    { intros ->. clear -Hpos Hread. revert d Hpos Hread.
      induction rest as [|b rest IH]; intros d Hpos Hread; simpl in Hread.
      - injection Hread as Hread. lia.
      - destruct (Decimal.digit b) as [e|]; [|discriminate].
        apply (IH (10 * d + e)%N); [lia | exact Hread]. }
    unfold pretty, pretty_N. rewrite decide_False by exact Hx.
    rewrite (pretty_N_go_digits rest d x "" Hpos Hread).
    rewrite pretty_N_go_step by exact Hpos.
    rewrite N.div_small, N.mod_small by exact Hlt.
    rewrite pretty_N_go_0, Hchar.
    f_equal. clear. induction rest as [|b rest IH]; [reflexivity|].
    change (String b rest +:+ "") with (String b (rest +:+ "")). f_equal. exact IH.
Qed.

(** And nothing else reads back to it: the numeral is the one printed. *)
Lemma read_unique (s : string) (n : Z) :
  Decimal.read s = Some n -> s = number_to_string n.
Proof.
  destruct s as [|a rest]; [discriminate|]. unfold Decimal.read.
  destruct (Ascii.N_of_ascii a =? 45)%N eqn:Hm.
  - destruct (Decimal.natural rest) as [[|p]|] eqn:Hnat; try discriminate.
    intros [= <-]. apply natural_unique in Hnat.
    apply N.eqb_eq in Hm.
    rewrite <- (Ascii.ascii_N_embedding a), Hm, Hnat. reflexivity.
  - destruct (Decimal.natural (String a rest)) as [k|] eqn:Hnat; [|discriminate].
    intros [= <-]. apply natural_unique in Hnat. rewrite Hnat.
    destruct k; reflexivity.
Qed.

(** ** The properties of the specification *)

(** C9.  An error report never throws and never vanishes.  With no
    observer on the error channel it is one line on the diagnostic output
    and no observer is called; otherwise it is one dispatch on the error
    channel, which calls the error observers with the error arguments in
    the order of their registration ([onError] appends). *)
Theorem handleError_reports_or_logs (c : Client) (msgs : list value) :
  let r := handleError msgs c in
  outcome r = Normal tt
  /\ final r = c
  /\ trace r <> []
  /\ match c_callbacks c error with
     | [] => trace r = [ConsoleError msgs]
     | (_ :: _) as observers =>
         trace r = dispatch c error msgs
         /\ dispatches error (trace r) = map (fun cb => (cb, msgs)) observers
     end
  /\ forall cb, c_callbacks (final (onError cb c)) error = c_callbacks c error ++ [cb].
Proof.
  intros r. subst r. rewrite handleError_run. unfold outcome, final, trace; simpl.
  split; [reflexivity|]. split; [reflexivity|]. split; [|split].
  - unfold report, dispatch. destruct (c_callbacks c error); discriminate.
  - unfold report. destruct (c_callbacks c error) as [|cb l] eqn:E; [reflexivity|].
    split; [reflexivity|]. rewrite dispatches_dispatch_same by discriminate.
    rewrite E. reflexivity.
  - intros cb. reflexivity.
Qed.

(** C3.  [sendQueue()] returns normally, having left the loop because its
    condition failed.  When the socket is open and the client is
    authenticated every queued entry has been written to the socket, in
    queue order, and the queue is empty; otherwise nothing was written and
    the client, its queue included, is unchanged. *)
Theorem sendQueue_gated_fifo (c : Client) :
  let r := sendQueue c in
  outcome r = Normal tt
  /\ sendQueue_cond (final r) = false
  /\ (if isOpen c && c_logged c
      then writes (trace r) = c_sendQueue c /\ final r = set_sendQueue [] c
           /\ trace r = flat_map (flush_entry c) (c_sendQueue c)
      else trace r = [] /\ final r = c).
Proof.
  intros r. subst r. split; [|split].
  - rewrite sendQueue_run. destruct (isOpen c && c_logged c); reflexivity.
  - apply sendQueue_exits.
  - rewrite sendQueue_run. destruct (isOpen c && c_logged c); unfold final, trace; simpl.
    + rewrite writes_flush. auto.
    + auto.
Qed.

(** C6.  A ping [n], [n] a safe integer, is answered at once with
    [formatWSPacket("~h~" + n)], the payload being [~h~] followed by the
    decimal numeral of [n] (the one string that reads as [n]); the reply
    is written to the socket without passing through the queue, and
    followed by one dispatch of [n] on the ping channel; no session
    handler is called and nothing is dispatched on the logged or data
    channels. *)
Theorem ping_reply (formatWSPacket : value -> string) (n : Z) (c : Client) :
  safe_integer n ->
  let r := parsePacket_callback formatWSPacket (VNum n) c in
  outcome r = Normal tt
  /\ final r = c
  /\ trace r = debug_line c [VStr debug_banner_packet; VNum n]
               ++ WsSend (formatWSPacket (VStr ("~h~" +:+ number_to_string n)))
                  :: dispatch c ping [VNum n]
  /\ writes (trace r) = [formatWSPacket (VStr ("~h~" +:+ number_to_string n))]
  /\ dispatches ping (trace r) = map (fun cb => (cb, [VNum n])) (c_callbacks c ping)
  /\ session_calls (trace r) = []
  /\ dispatches logged (trace r) = []
  /\ dispatches data (trace r) = []
  /\ Decimal.read (number_to_string n) = Some n
  /\ (forall numeral,
        Decimal.read numeral = Some n ->
        writes (trace r) = [formatWSPacket (VStr ("~h~" +:+ numeral))]).
Proof.
  intros _ r. subst r. rewrite callback_ping. unfold outcome, final, trace; simpl.
  assert (Hw : writes (debug_line c [VStr debug_banner_packet; VNum n]
                       ++ WsSend (formatWSPacket (VStr ("~h~" +:+ number_to_string n)))
                          :: dispatch c ping [VNum n])
               = [formatWSPacket (VStr ("~h~" +:+ number_to_string n))]).
  { rewrite writes_app, writes_debug_line. simpl.
    rewrite writes_send.
    rewrite writes_dispatch. reflexivity. }
  split; [reflexivity|]. split; [reflexivity|]. split; [reflexivity|].
  split; [exact Hw|]. split; [|split; [|split; [|split; [|split]]]].
  - rewrite dispatches_app, dispatches_debug_line. simpl.
    rewrite dispatches_send.
    apply dispatches_dispatch_same. discriminate.
  - rewrite session_calls_app, session_calls_debug_line. simpl.
    rewrite session_calls_send.
    apply session_calls_dispatch.
  - rewrite dispatches_app, dispatches_debug_line. simpl.
    rewrite dispatches_send.
    apply dispatches_dispatch_other; discriminate.
  - rewrite dispatches_app, dispatches_debug_line. simpl.
    rewrite dispatches_send.
    apply dispatches_dispatch_other; discriminate.
  - apply read_number_to_string.
  - intros numeral Hread. rewrite (read_unique numeral n Hread). exact Hw.
Qed.

(** The ping 123 on the sample client. *)
Lemma ping_reply_witness :
  safe_integer 123
  /\ writes (trace (parsePacket_callback Protocol.formatWSPacket (VNum 123) Sample.client))
     = ["~m~6~m~~h~123"]
  /\ dispatches ping
       (trace (parsePacket_callback Protocol.formatWSPacket (VNum 123) Sample.client))
     = [(4, [VNum 123])].
Proof.
  assert (Hs : safe_integer 123) by (unfold safe_integer; lia).
  split; [exact Hs|].
  destruct (ping_reply Protocol.formatWSPacket 123 Sample.client Hs)
    as (_ & _ & _ & Hw & Hd & _).
  split; [exact Hw | exact Hd].
Defined.

(** The ping example of the specification: the batch decoded from
    [~m~3~m~123] is answered with [~m~6~m~~h~123]. *)
Example ping_reply_example :
  parsePacket Protocol.formatWSPacket (Protocol.decodes_to [VNum 123]) "~m~3~m~123"
              Sample.client
  = (Normal tt, Sample.client,
     [WsSend "~m~6~m~~h~123"; Notify ping 4 [VNum 123];
      Notify event 7 [VStr "ping"; VNum 123]]).
Proof. reflexivity. Qed.




(** C10.  A session handler is called only for a packet whose [m] and
    [p] are truthy and whose first payload element is truthy.  A message
    (other than a protocol error) whose first payload element is the empty
    string or the number 0 is never looked up in the registry: whatever
    sessions are registered, it is dispatched on the logged channel when
    the client is not authenticated and on the data channel when it is. *)
Theorem session_delivery_requires_truthiness
    (formatWSPacket : value -> string) (c : Client) (packet : value) :
  let r := parsePacket_callback formatWSPacket packet c in
  (forall key s parsed,
      In (key, s, parsed) (session_calls (trace r)) ->
      exists m p session,
        member "m" packet = Normal m /\ truthy m = true
        /\ member "p" packet = Normal p /\ truthy p = true
        /\ element0 p = Normal session /\ truthy session = true)
  /\ (forall m p,
      member "m" packet = Normal m ->
      strict_equals_string m "protocol_error" = false ->
      member "p" packet = Normal p ->
      element0 p = Normal (VStr "") \/ element0 p = Normal (VNum 0) ->
      r = (Normal tt, c,
           debug_line c [VStr debug_banner_packet; packet]
           ++ dispatch c (if c_logged c then data else logged) [packet])
      /\ session_calls (trace r) = []).
Proof.
  intros r. subst r. split.
  - intros key s parsed Hin.
    destruct (callback_session_calls formatWSPacket packet c key s parsed Hin)
      as (m & p & session & Hm & Hp & _ & Tm & Tp & Hs & Ts & _).
    exists m, p, session. repeat split; assumption.
  - intros m p Hm He Hp Hfirst.
    assert (Hn : is_number packet = false).
    { destruct packet; try reflexivity. simpl in Hp. injection Hp as <-.
      destruct Hfirst as [H|H]; discriminate H. }
    assert (Hd : deliver packet c = (Normal false, c, [])).
    { unfold deliver, bind, lift, get, ret. rewrite Hm, Hp.
      destruct (truthy m && truthy p); [|reflexivity].
      destruct Hfirst as [-> | ->]; reflexivity. }
    rewrite (callback_message formatWSPacket packet m c Hm He Hn), Hd.
    split; [reflexivity|]. unfold trace; simpl.
    rewrite session_calls_app, session_calls_debug_line, session_calls_dispatch.
    reflexivity.
Qed.

(** With sessions registered under the keys [""] and ["0"], messages whose
    first payload element is [""] or [0] still reach the data channel; and
    the message that does reach session [qs_1] is truthy at the three places. *)
Lemma session_delivery_requires_truthiness_witness :
  let c := set_sessions (<["0" := Sample.qs_1]> (c_sessions (Sample.client_with_key "")))
                        Sample.client in
  let zero := VObj [("m", VStr "qsd"); ("p", VArr [VNum 0])] in
  parsePacket_callback Protocol.formatWSPacket Sample.empty_key c
  = (Normal tt, c, dispatch c data [Sample.empty_key])
  /\ parsePacket_callback Protocol.formatWSPacket zero c
     = (Normal tt, c, dispatch c data [zero])
  /\ c_sessions c !! "" = Some Sample.qs_1
  /\ c_sessions c !! "0" = Some Sample.qs_1
  /\ exists m p session,
       member "m" Sample.qsd = Normal m /\ truthy m = true
       /\ member "p" Sample.qsd = Normal p /\ truthy p = true
       /\ element0 p = Normal session /\ truthy session = true.
Proof.
  intros c zero.
  split; [|split; [|split; [reflexivity|split; [reflexivity|]]]].
  3:{ exact (proj1 (session_delivery_requires_truthiness Protocol.formatWSPacket
                      Sample.client Sample.qsd)
                   "qs_1" Sample.qs_1
                   (VObj [("type", VStr "qsd"); ("data", VArr [VStr "qs_1"; VObj []])])
                   (or_introl eq_refl)). }
  - exact (proj1 (proj2 (session_delivery_requires_truthiness Protocol.formatWSPacket c
                           Sample.empty_key)
                        (VStr "qsd") (VArr [VStr ""])
                        eq_refl eq_refl eq_refl (or_introl eq_refl))).
  - exact (proj1 (proj2 (session_delivery_requires_truthiness Protocol.formatWSPacket c zero)
                        (VStr "qsd") (VArr [VNum 0])
                        eq_refl eq_refl eq_refl (or_intror eq_refl))).
Defined.

(** C7 fails on a message whose first payload element names a property
    that every plain object inherits.  No session is registered under
    [toString], yet the registry lookup finds the inherited method, the
    call of its [onData] raises a [TypeError], nothing is dispatched on the
    data channel (or, before authentication, on the logged channel), and
    the packets behind it in the batch are not routed at all. *)
Theorem unrouted_message_with_inherited_key :
  Sample.inherited_key = VObj [("m", VStr "qsd"); ("p", VArr [VStr "toString"])]
  /\ c_sessions Sample.client !! "toString" = None
  /\ parsePacket_callback Protocol.formatWSPacket Sample.inherited_key Sample.client
     = (Throw TypeError, Sample.client, [])
  /\ parsePacket_callback Protocol.formatWSPacket Sample.inherited_key
                          (set_logged false Sample.client)
     = (Throw TypeError, set_logged false Sample.client, [])
  /\ parsePacket Protocol.formatWSPacket
                 (Protocol.decodes_to [Sample.inherited_key; Sample.unrouted]) ""
                 Sample.client
     = (Throw TypeError, Sample.client, [])
  /\ parsePacket Protocol.formatWSPacket (Protocol.decodes_to [Sample.unrouted]) ""
                 Sample.client
     = (Normal tt, Sample.client,
        [Notify data 5 [Sample.unrouted];
         Notify event 7 [VStr "data"; Sample.unrouted]]).
Proof. repeat split; reflexivity. Qed.

(** Apart from that, C7 holds: when the "normal packet" block falls
    through, the packet is dispatched once, on the logged channel when the
    client is not authenticated and on the data channel when it is. *)
Lemma unrouted_message_dispatch
    (formatWSPacket : value -> string) (c : Client) (packet m : value) :
  member "m" packet = Normal m ->
  strict_equals_string m "protocol_error" = false ->
  is_number packet = false ->
  deliver packet c = (Normal false, c, []) ->
  parsePacket_callback formatWSPacket packet c
  = (Normal tt, c,
     debug_line c [VStr debug_banner_packet; packet]
     ++ dispatch c (if c_logged c then data else logged) [packet]).
Proof.
  intros Hm He Hn Hd.
  rewrite (callback_message formatWSPacket packet m c Hm He Hn), Hd. reflexivity.
Qed.

(** C2, amended.  A [protocol_error] message is reported once, through
    [handleError] with the payload (one dispatch to the error observers,
    or the diagnostic output when there is none), and then the socket is
    closed; the message itself reaches no session handler and none of the
    ping, logged and data channels, and nothing is written to the socket. *)
Theorem protocol_error_frame
    (formatWSPacket : value -> string) (c : Client) (packet p : value) :
  member "m" packet = Normal (VStr "protocol_error") ->
  member "p" packet = Normal p ->
  let r := parsePacket_callback formatWSPacket packet c in
  outcome r = Normal tt
  /\ final r = set_ws (match c_ws c with CLOSED => CLOSED | _ => CLOSING end) c
  /\ isOpen (final r) = false
  /\ trace r = debug_line c [VStr debug_banner_packet; packet]
               ++ report c [VStr "Client critical error:"; p] ++ [WsClose]
  /\ dispatches error (trace r)
     = map (fun cb => (cb, [VStr "Client critical error:"; p])) (c_callbacks c error)
  /\ session_calls (trace r) = []
  /\ dispatches ping (trace r) = []
  /\ dispatches logged (trace r) = []
  /\ dispatches data (trace r) = []
  /\ writes (trace r) = [].
Proof.
  intros Hm Hp r. subst r.
  rewrite (callback_protocol_error formatWSPacket packet _ p c Hm eq_refl Hp).
  unfold outcome, final, trace; simpl.
  split; [reflexivity|]. split; [reflexivity|]. split.
  { destruct c as [[] lg ss cbs q pend dbg]; reflexivity. }
  split; [reflexivity|].
  rewrite !dispatches_app, !dispatches_debug_line, session_calls_app,
    session_calls_debug_line, session_calls_app, session_calls_report,
    !writes_app, writes_debug_line, writes_report.
  rewrite (dispatches_report_other c ping), (dispatches_report_other c logged),
    (dispatches_report_other c data) by discriminate. simpl.
  repeat split; try reflexivity.
  unfold report. destruct (c_callbacks c error) as [|cb l] eqn:E; [reflexivity|].
  rewrite dispatches_dispatch_same by discriminate. rewrite E, app_nil_r. reflexivity.
Qed.

(** The protocol error of the specification, alone in its batch. *)
Lemma protocol_error_frame_witness :
  let r := parsePacket_callback Protocol.formatWSPacket Sample.protocol_error
                                Sample.client in
  outcome r = Normal tt
  /\ final r = set_ws CLOSING Sample.client
  /\ isOpen (final r) = false
  /\ trace r = report Sample.client
                      [VStr "Client critical error:"; VArr [VStr "bad session"]]
               ++ [WsClose]
  /\ dispatches error (trace r)
     = [(6, [VStr "Client critical error:"; VArr [VStr "bad session"]])]
  /\ session_calls (trace r) = []
  /\ dispatches ping (trace r) = []
  /\ dispatches logged (trace r) = []
  /\ dispatches data (trace r) = []
  /\ writes (trace r) = [].
Proof.
  apply (protocol_error_frame Protocol.formatWSPacket Sample.client Sample.protocol_error
           (VArr [VStr "bad session"])); reflexivity.
Defined.

(** C2 as stated fails.  The packets that follow a protocol error in the
    same batch are still routed, after [close()] was called on the socket:
    here one goes to its session and one to the data channel.  And a
    client without error observer dispatches nothing on the error channel. *)
Lemma protocol_error_does_not_end_batch :
  parsePacket Protocol.formatWSPacket
              (Protocol.decodes_to [Sample.protocol_error; Sample.qsd; Sample.unrouted]) ""
              Sample.client
  = (Normal tt, set_ws CLOSING Sample.client,
     [Notify error 6 [VStr "Client critical error:"; VArr [VStr "bad session"]];
      Notify event 7 [VStr "error"; VStr "Client critical error:";
                      VArr [VStr "bad session"]];
      WsClose;
      SessionOnData "qs_1" Sample.qs_1
        (VObj [("type", VStr "qsd"); ("data", VArr [VStr "qs_1"; VObj []])]);
      Notify data 5 [Sample.unrouted];
      Notify event 7 [VStr "data"; Sample.unrouted]])
  /\ trace (parsePacket_callback Protocol.formatWSPacket Sample.protocol_error
                                 Sample.client_without_error_observer)
     = [ConsoleError [VStr "Client critical error:"; VArr [VStr "bad session"]];
        WsClose]
  /\ dispatches error
       (trace (parsePacket_callback Protocol.formatWSPacket Sample.protocol_error
                                    Sample.client_without_error_observer))
     = [].
Proof. repeat split; reflexivity. Qed.

Section Authentication.

Variable formatWSPacket : value -> string.
Variable parseWSPacket : string -> list value.

Local Abbreviation step_of := (step formatWSPacket parseWSPacket).
Local Abbreviation run_of := (run formatWSPacket parseWSPacket).
Local Abbreviation frames_of := (sent_frames formatWSPacket).
Local Abbreviation new_client := (constructor formatWSPacket).

Local Arguments step : simpl never.

Lemma run_sends_unauthenticated (calls : list (value * value)) :
  forall c,
    c_logged c = false ->
    run_of (map (fun tp => Call_send tp.1 tp.2) calls) c
    = Some (set_sendQueue
              (c_sendQueue c ++ map (fun tp => send_frame formatWSPacket tp.1 tp.2) calls) c,
            []).
Proof.
  induction calls as [|[t p] calls IH]; intros c Hl.
  - simpl. rewrite app_nil_r. destruct c; reflexivity.
  - simpl. unfold step at 1. rewrite send_run. simpl. rewrite Hl, andb_false_r.
    rewrite IH by (destruct c; exact Hl).
    destruct c; simpl. rewrite <- app_assoc. reflexivity.
Qed.

Lemma step_resolved_run (authToken : value) (c : Client) :
  step_of (GetUser_resolved authToken) c
  = let q := auth_frame formatWSPacket authToken :: c_sendQueue c in
    if isOpen c
    then (Normal tt,
          set_sendQueue [] (set_logged true (set_getUser_pending false c)),
          flat_map (flush_entry c) q)
    else (Normal tt,
          set_sendQueue q (set_logged true (set_getUser_pending false c)),
          []).
Proof.
  unfold step, bind. unfold modify at 1. rewrite enqueue_auth_run.
  destruct c as [ws lg ss cbs q pend dbg]; unfold isOpen; simpl.
  destruct (bool_decide (ws = OPEN)); reflexivity.
Qed.

Lemma step_rejected_run (message : value) (c : Client) :
  step_of (GetUser_rejected message) c
  = (Normal tt, set_getUser_pending false c,
     report c [VStr "Credentials error:"; message]).
Proof.
  unfold step, bind. unfold modify at 1. rewrite handleError_run.
  destruct c; reflexivity.
Qed.

Lemma step_open_run (c : Client) :
  step_of Ws_open c
  = if c_logged c
    then (Normal tt, set_sendQueue [] (set_ws OPEN c),
          dispatch c connected [] ++ flat_map (flush_entry c) (c_sendQueue c))
    else (Normal tt, set_ws OPEN c, dispatch c connected [] ++ []).
Proof.
  unfold step, bind. unfold modify at 1. rewrite handleEvent_run, sendQueue_run.
  destruct c as [ws lg ss cbs q pend dbg]; unfold isOpen; simpl.
  destruct lg; reflexivity.
Qed.

(** C4.  Take a client constructed with a token, at any point of its life
    where the credential exchange is still unresolved.  The frames of the
    [send] calls made from there on pile up at the tail of the queue in
    call order (behind those of earlier calls) and nothing is written.
    When the exchange resolves, the auth frame goes to the head of the
    queue: on an open socket the auth frame is written first and the
    accumulated frames follow in call order; on a socket that is not open
    yet they stay queued in that order and are written in that order when
    it opens. *)
Theorem queue_order_under_pending_auth
    (global_debug : bool) (clientOptions : ClientOptions) (before : list input)
    (c : Client) (t0 : list effect) (calls : list (value * value)) (authToken : value) :
  truthy (token clientOptions) = true ->
  run_of before (final (new_client global_debug clientOptions)) = Some (c, t0) ->
  c_getUser_pending c = true ->
  let frames := map (fun tp => send_frame formatWSPacket tp.1 tp.2) calls in
  let order := auth_frame formatWSPacket authToken :: frames_of before ++ frames in
  exists c1,
    run_of (map (fun tp => Call_send tp.1 tp.2) calls) c = Some (c1, [])
    /\ c_sendQueue c1 = frames_of before ++ frames
    /\ let r := step_of (GetUser_resolved authToken) c1 in
       c_logged (final r) = true
       /\ if isOpen c
          then writes (trace r) = order /\ c_sendQueue (final r) = []
          else trace r = []
               /\ c_sendQueue (final r) = order
               /\ writes (trace (step_of Ws_open (final r))) = order
               /\ c_sendQueue (final (step_of Ws_open (final r))) = [].
Proof.
  intros Htok Hrun Hpend frames order.
  assert (H0 : c_logged (final (new_client global_debug clientOptions)) = false
               /\ c_sendQueue (final (new_client global_debug clientOptions)) = []).
  { rewrite constructor_run. simpl. rewrite Htok. split; reflexivity. }
  destruct H0 as [Hl0 Hq0].
  destruct (run_pending_unauthenticated formatWSPacket parseWSPacket before _ c t0
              Hl0 Hrun Hpend) as (Hl & _ & Hq & _).
  rewrite Hq0 in Hq. simpl in Hq.
  eexists. split; [apply run_sends_unauthenticated; exact Hl|].
  split; [destruct c; simpl in *; rewrite Hq; reflexivity|].
  rewrite step_resolved_run.
  assert (Ho : isOpen (set_sendQueue (c_sendQueue c ++ frames) c) = isOpen c)
    by (destruct c; reflexivity).
  fold frames. simpl. rewrite Ho.
  destruct (isOpen c) eqn:Hopen; unfold final, trace; simpl.
  - split; [destruct c; reflexivity|]. split; [|destruct c; reflexivity].
    rewrite writes_send.
    rewrite writes_app, writes_debug_line. simpl.
    rewrite writes_flush. unfold order. rewrite <- Hq. destruct c; reflexivity.
  - split; [destruct c; reflexivity|]. split; [reflexivity|].
    split; [unfold order; rewrite <- Hq; destruct c; reflexivity|].
    rewrite step_open_run.
    replace (c_logged _) with true by (destruct c; reflexivity).
    simpl. split; [|destruct c; reflexivity].
    rewrite writes_app, writes_dispatch. simpl.
    rewrite writes_send.
    rewrite writes_app, writes_debug_line. simpl.
    rewrite writes_flush. unfold order. rewrite <- Hq. destruct c; reflexivity.
Qed.

(** C5.  The authenticated flag follows the auth frame into the queue and
    nothing else.  Constructed without a (truthy) token, the client leaves
    the constructor authenticated, the auth frame being the one entry of
    its queue.  Constructed with a token it leaves the constructor
    unauthenticated with an empty queue and the exchange pending, and
    stays unauthenticated for as long as the exchange is pending.  No
    input other than the resolution of the exchange turns the flag on, an
    inbound message in particular does not; the resolution turns it on in
    the step that puts the auth frame at the head of the queue (from where
    an open socket sends it at once, first). *)
Theorem authenticated_when_auth_frame_enqueued
    (global_debug : bool) (clientOptions : ClientOptions) :
  let r := new_client global_debug clientOptions in
  (if truthy (token clientOptions)
   then c_logged (final r) = false
        /\ c_sendQueue (final r) = []
        /\ c_getUser_pending (final r) = true
   else c_logged (final r) = true
        /\ c_sendQueue (final r)
           = [auth_frame formatWSPacket (VStr "unauthorized_user_token")]
        /\ c_getUser_pending (final r) = false)
  /\ (forall before c t,
        truthy (token clientOptions) = true ->
        run_of before (final r) = Some (c, t) ->
        c_getUser_pending c = true ->
        c_logged c = false)
  /\ (forall c i,
        c_logged c = false ->
        c_logged (final (step_of i c)) = true ->
        exists authToken, i = GetUser_resolved authToken)
  /\ (forall c authToken,
        let r' := step_of (GetUser_resolved authToken) c in
        c_logged (final r') = true
        /\ if isOpen c
           then head (writes (trace r')) = Some (auth_frame formatWSPacket authToken)
           else head (c_sendQueue (final r')) = Some (auth_frame formatWSPacket authToken)
                /\ trace r' = []).
Proof.
  intros r. subst r. split; [|split; [|split]].
  - rewrite constructor_run. simpl.
    destruct (truthy (token clientOptions)); repeat split; reflexivity.
  - intros before c t Htok Hrun Hpend.
    refine (proj1 (run_pending_unauthenticated formatWSPacket parseWSPacket
                     before _ c t _ Hrun Hpend)).
    rewrite constructor_run. simpl. rewrite Htok. reflexivity.
  - intros c i Hl Hl'.
    destruct (resolves i) eqn:Hr.
    + destruct i; try discriminate Hr. eauto.
    + destruct (step_unauthenticated formatWSPacket parseWSPacket i c Hl Hr) as (H & _).
      congruence.
  - intros c authToken r'. subst r'. rewrite step_resolved_run. simpl.
    destruct (isOpen c); unfold final, trace; simpl.
    + split; [destruct c; reflexivity | reflexivity].
    + split; [destruct c; reflexivity|]. split; [destruct c; reflexivity | reflexivity].
Qed.

(** C8.  Take a client constructed with a token whose credential exchange
    is rejected at some point of a run.  The rejection is reported through
    [handleError] with the error's message; and at the end of the run,
    however it goes on, the client is not authenticated, its queue holds
    the frames of all [send] calls since construction in call order, and
    nothing but pongs was ever written to the socket. *)
Theorem credential_rejection_is_permanent
    (global_debug : bool) (clientOptions : ClientOptions)
    (before after : list input) (message : value) (c : Client) (t : list effect) :
  truthy (token clientOptions) = true ->
  run_of (before ++ GetUser_rejected message :: after)
         (final (new_client global_debug clientOptions)) = Some (c, t) ->
  c_logged c = false
  /\ c_sendQueue c = frames_of (before ++ after)
  /\ Forall (is_pong formatWSPacket) (writes t)
  /\ exists c1 t1 t2,
       run_of before (final (new_client global_debug clientOptions)) = Some (c1, t1)
       /\ t = t1 ++ report c1 [VStr "Credentials error:"; message] ++ t2.
Proof.
  intros Htok Hrun.
  assert (H0 : c_logged (final (new_client global_debug clientOptions)) = false
               /\ c_sendQueue (final (new_client global_debug clientOptions)) = []).
  { rewrite constructor_run. simpl. rewrite Htok. split; reflexivity. }
  destruct H0 as [Hl0 Hq0].
  rewrite run_app in Hrun.
  destruct (run_of before _) as [[c1 t1]|] eqn:Hbefore; [|discriminate].
  simpl in Hrun.
  destruct (c_getUser_pending c1) eqn:Hpend; [|discriminate].
  rewrite step_rejected_run in Hrun.
  destruct (run_of after (set_getUser_pending false c1)) as [[c2 t2]|] eqn:Hafter;
    [|discriminate].
  injection Hrun as <- <-.
  destruct (run_pending_unauthenticated formatWSPacket parseWSPacket before _ c1 t1
              Hl0 Hbefore Hpend) as (Hl1 & _ & Hq1 & Hw1).
  destruct (run_settled_unauthenticated formatWSPacket parseWSPacket after
              (set_getUser_pending false c1) c2 t2) as (Hl2 & _ & Hq2 & Hw2);
    [destruct c1; exact Hl1 | destruct c1; reflexivity | exact Hafter |].
  split; [exact Hl2|]. split; [|split].
  - rewrite Hq2. replace (c_sendQueue (set_getUser_pending false c1))
      with (c_sendQueue c1) by (destruct c1; reflexivity).
    rewrite Hq1, Hq0. simpl. symmetry. apply frames_of_app.
  - rewrite !writes_app, writes_report. simpl. apply Forall_app; auto.
  - exists c1, t1, t2. split; reflexivity.
Qed.

End Authentication.

(** A run for [queue_order_under_pending_auth]: a client constructed with
    a token sends once, its socket opens, it sends twice more, and then
    the exchange resolves. *)
Lemma queue_order_under_pending_auth_witness :
  let fmt := Protocol.formatWSPacket in
  let step_of := step fmt (Protocol.decodes_to []) in
  let run_of := run fmt (Protocol.decodes_to []) in
  let before := [Call_send (VStr "set_locale") (VArr [VStr "en"; VStr "US"]); Ws_open] in
  let calls := [(VStr "quote_create_session", VArr [VStr "qs_1"]);
                (VStr "quote_add_symbols", VArr [VStr "qs_1"; VStr "BTCEUR"])] in
  let frames := map (fun tp => send_frame fmt tp.1 tp.2) calls in
  let order := auth_frame fmt (VStr "tok") :: sent_frames fmt before ++ frames in
  exists c t0,
    run_of before (final (constructor fmt false Sample.with_token)) = Some (c, t0)
    /\ c_getUser_pending c = true
    /\ isOpen c = true
    /\ exists c1,
         run_of (map (fun tp => Call_send tp.1 tp.2) calls) c = Some (c1, [])
         /\ c_sendQueue c1 = sent_frames fmt before ++ frames
         /\ let r := step_of (GetUser_resolved (VStr "tok")) c1 in
            c_logged (final r) = true
            /\ if isOpen c
               then writes (trace r) = order /\ c_sendQueue (final r) = []
               else trace r = []
                    /\ c_sendQueue (final r) = order
                    /\ writes (trace (step_of Ws_open (final r))) = order
                    /\ c_sendQueue (final (step_of Ws_open (final r))) = [].
Proof.
  intros fmt step_of run_of before calls frames order.
  eexists. eexists.
  split; [reflexivity|]. split; [reflexivity|]. split; [reflexivity|].
  eapply (queue_order_under_pending_auth fmt (Protocol.decodes_to []) false
            Sample.with_token before _ _ calls (VStr "tok")); reflexivity.
Defined.

(** A run for [credential_rejection_is_permanent]: sends before and after
    the rejection, the socket opening, a ping coming in. *)
Lemma credential_rejection_is_permanent_witness :
  let fmt := Protocol.formatWSPacket in
  let parse := Protocol.decodes_to [VNum 1] in
  let before := [Call_send (VStr "set_locale") (VArr [VStr "en"; VStr "US"]); Ws_open] in
  let after := [Call_send (VStr "quote_create_session") (VArr [VStr "qs_1"]);
                Ws_message "~m~1~m~1"; Call_sendQueue] in
  let message := VStr "Wrong or expired sessionid/signature" in
  exists c t,
    run fmt parse (before ++ GetUser_rejected message :: after)
        (final (constructor fmt false Sample.with_token)) = Some (c, t)
    /\ c_logged c = false
    /\ c_sendQueue c = sent_frames fmt (before ++ after)
    /\ Forall (is_pong fmt) (writes t)
    /\ exists c1 t1 t2,
         run fmt parse before (final (constructor fmt false Sample.with_token))
         = Some (c1, t1)
         /\ t = t1 ++ report c1 [VStr "Credentials error:"; message] ++ t2.
Proof.
  intros fmt parse before after message.
  eexists. eexists. split; [reflexivity|].
  apply (credential_rejection_is_permanent fmt parse false Sample.with_token
           before after message); reflexivity.
Defined.

(** ** The life of a client *)

Section Lifecycle.

Variable formatWSPacket : value -> string.
Variable parseWSPacket : string -> list value.

Local Abbreviation callback_of := (parsePacket_callback formatWSPacket).
Local Abbreviation parse_of := (parsePacket formatWSPacket parseWSPacket).
Local Abbreviation step_of := (step formatWSPacket parseWSPacket).
Local Abbreviation run_of := (run formatWSPacket parseWSPacket).
Local Abbreviation frames_of := (sent_frames formatWSPacket).
Local Abbreviation new_client := (constructor formatWSPacket).
Local Abbreviation timely := (opens_while_connecting formatWSPacket parseWSPacket).

Local Arguments step : simpl never.

(** Routing leaves the socket as it was or on its way down. *)
Lemma callback_ws (packet : value) (c : Client) :
  final (callback_of packet c) = c
  \/ final (callback_of packet c) = set_ws (match c_ws c with CLOSED => CLOSED | _ => CLOSING end) c.
Proof.
  destruct (callback_cases formatWSPacket packet c) as
    [(n & -> & H) | [(p & H) | [(key & s & parsed & H) | [H | (e & H)]]]];
    rewrite H; unfold final; simpl; auto.
Qed.

Lemma forEach_callback_ws (batch : list value) :
  forall c,
    final (forEach batch callback_of c) = c
    \/ closing_or_closed (final (forEach batch callback_of c)) = true.
Proof.
  induction batch as [|packet batch IH]; intros c; [left; reflexivity|].
  simpl. unfold bind.
  pose proof (callback_ws packet c) as Hc.
  destruct (callback_of packet c) as [[[[]|e] c1] t1]; unfold final in *; simpl in *.
  - specialize (IH c1).
    destruct (forEach batch callback_of c1) as [[r c2] t2]; simpl in *.
    destruct Hc as [-> | ->]; [exact IH|].
    right. destruct IH as [-> | IH]; [|exact IH].
    unfold closing_or_closed. destruct c as [[] lg ss cbs q pend dbg]; reflexivity.
  - destruct Hc as [-> | ->]; [left; reflexivity|].
    right. unfold closing_or_closed. destruct c as [[] lg ss cbs q pend dbg]; reflexivity.
Qed.

Lemma parsePacket_ws (str : string) (c : Client) :
  final (parse_of str c) = c \/ closing_or_closed (final (parse_of str c)) = true.
Proof.
  unfold parsePacket, bind, get. destruct (isOpen c); simpl.
  - pose proof (forEach_callback_ws (parseWSPacket str) c) as H.
    destruct (forEach (parseWSPacket str) callback_of c) as [[r c2] t2].
    unfold final in *; simpl in *. exact H.
  - left. reflexivity.
Qed.

Lemma parsePacket_not_open (str : string) (c : Client) :
  isOpen c = false -> parse_of str c = (Normal tt, c, []).
Proof. intros H. unfold parsePacket, bind, get. rewrite H. reflexivity. Qed.

(** What a step does to the observers, the registry and the debug flag. *)
Lemma step_frame (i : input) (c : Client) :
  (forall ev, c_callbacks (final (step_of i c)) ev = c_callbacks c ev ++ registered ev [i])
  /\ c_sessions (final (step_of i c)) = registry_after [i] (c_sessions c)
  /\ g_TW_DEBUG (final (step_of i c)) = g_TW_DEBUG c.
Proof.
  assert (Hsame : forall c1 : Client,
             c_callbacks c1 = c_callbacks c -> c_sessions c1 = c_sessions c ->
             g_TW_DEBUG c1 = g_TW_DEBUG c ->
             (forall ev, c_callbacks c1 ev = c_callbacks c ev ++ [])
             /\ c_sessions c1 = c_sessions c /\ g_TW_DEBUG c1 = g_TW_DEBUG c).
  { intros c1 H1 H2 H3. repeat split; auto. intros ev. rewrite H1, app_nil_r. reflexivity. }
  destruct i.
  - unfold step. rewrite send_run. simpl.
    destruct (isOpen c && c_logged c); apply Hsame; destruct c; reflexivity.
  - unfold step. rewrite sendQueue_run.
    destruct (isOpen c && c_logged c); apply Hsame; destruct c; reflexivity.
  - unfold step, on, modify, final; simpl. repeat split. intros ev'.
    destruct (decide (ev' = ev)) as [->|Hne].
    + rewrite decide_True by reflexivity. reflexivity.
    + rewrite decide_False by congruence. rewrite app_nil_r. reflexivity.
  - unfold step, end_, bind, get, ws_close, bind, emit, modify.
    apply Hsame; destruct c as [[] lg ss cbs q pend dbg]; reflexivity.
  - unfold step, modify, final; simpl. repeat split. intros ev. apply eq_sym, app_nil_r.
  - unfold step, modify, final; simpl. repeat split. intros ev. apply eq_sym, app_nil_r.
  - rewrite step_open_run. destruct (c_logged c); apply Hsame; destruct c; reflexivity.
  - unfold step, bind, modify. rewrite handleEvent_run. apply Hsame; destruct c; reflexivity.
  - unfold step. rewrite handleError_run. apply Hsame; reflexivity.
  - unfold step.
    destruct (parsePacket_frame formatWSPacket parseWSPacket str c) as [H _].
    apply Hsame; rewrite H; destruct c; reflexivity.
  - rewrite step_resolved_run. simpl.
    destruct (isOpen c); apply Hsame; destruct c; reflexivity.
  - rewrite step_rejected_run. apply Hsame; destruct c; reflexivity.
Qed.

Lemma registered_cons ev (i : input) (ins : list input) :
  registered ev (i :: ins) = registered ev [i] ++ registered ev ins.
Proof.
  destruct i; try reflexivity. simpl. destruct (decide (ev0 = ev)); reflexivity.
Qed.

Lemma registry_after_cons (i : input) (ins : list input) (ss : gmap string Session) :
  registry_after (i :: ins) ss = registry_after ins (registry_after [i] ss).
Proof. destruct i; reflexivity. Qed.

Lemma run_frame (ins : list input) :
  forall c c' t,
    run_of ins c = Some (c', t) ->
    (forall ev, c_callbacks c' ev = c_callbacks c ev ++ registered ev ins)
    /\ c_sessions c' = registry_after ins (c_sessions c)
    /\ g_TW_DEBUG c' = g_TW_DEBUG c.
Proof.
  induction ins as [|i ins IH]; intros c c' t Hrun; simpl in Hrun.
  - injection Hrun as <- <-. repeat split. intros ev. rewrite app_nil_r. reflexivity.
  - destruct (can_occur c i); [|discriminate].
    destruct (step_frame i c) as (Hcb & Hss & Hdbg).
    destruct (step_of i c) as [[r c1] t1]. unfold final in *; simpl in *.
    destruct (run_of ins c1) as [[c2 t2]|] eqn:Hrest; [|discriminate].
    injection Hrun as <- <-.
    destruct (IH c1 c2 t2 Hrest) as (Hcb' & Hss' & Hdbg').
    split; [|split].
    + intros ev. rewrite Hcb', Hcb, <- app_assoc. f_equal.
      exact (eq_sym (registered_cons ev i ins)).
    + rewrite Hss', Hss. exact (eq_sym (registry_after_cons i ins (c_sessions c))).
    + congruence.
Qed.

(** X1.  Observers are never removed and never reordered: at the end of
    any run, the observers of a channel are those it had at the start,
    followed by the ones the run registered on that channel, in the order
    of the calls. *)
Theorem observers_only_grow
    (ins : list input) (c c' : Client) (t : list effect) (ev : ClientEvent) :
  run_of ins c = Some (c', t) ->
  c_callbacks c' ev = c_callbacks c ev ++ registered ev ins.
Proof. intros Hrun. exact (proj1 (run_frame ins c c' t Hrun) ev). Qed.

(** X2.  The client never touches the session registry itself: at the end
    of any run, whatever was received, reported or closed in between, the
    registry is the initial one with the bridge's assignments and
    deletions applied in order. *)
Theorem registry_changes_only_through_bridge
    (ins : list input) (c c' : Client) (t : list effect) :
  run_of ins c = Some (c', t) ->
  c_sessions c' = registry_after ins (c_sessions c).
Proof. intros Hrun. exact (proj1 (proj2 (run_frame ins c c' t Hrun))). Qed.

Lemma closing_or_closed_not_open (c : Client) :
  closing_or_closed c = true -> isOpen c = false.
Proof. unfold closing_or_closed, isOpen. destruct (c_ws c); intros H; try discriminate H; reflexivity. Qed.

(** X3.  An inbound message changes nothing of the client but, at most,
    the state of its socket, which it can only take from open towards
    closed: the authentication flag, the send queue, the registry, the
    observers and the pending exchange are as before.  All it writes to
    the socket is pongs.  Received on a socket that is not open, it is
    dropped whole, undecoded. *)
Theorem inbound_message_frame (str : string) (c : Client) :
  let r := parse_of str c in
  c_logged (final r) = c_logged c
  /\ c_sendQueue (final r) = c_sendQueue c
  /\ c_sessions (final r) = c_sessions c
  /\ c_callbacks (final r) = c_callbacks c
  /\ c_getUser_pending (final r) = c_getUser_pending c
  /\ (final r = c \/ (isOpen c = true /\ closing_or_closed (final r) = true))
  /\ Forall (is_pong formatWSPacket) (writes (trace r))
  /\ (if isOpen c then True else r = (Normal tt, c, [])).
Proof.
  intros r. subst r.
  destruct (parsePacket_frame formatWSPacket parseWSPacket str c) as [Hs Hw].
  pose proof (parsePacket_ws str c) as Hws.
  destruct (isOpen c) eqn:Ho.
  - repeat split; try (rewrite Hs; destruct c; reflexivity); auto.
    destruct Hws as [H|H]; auto.
  - rewrite (parsePacket_not_open str c Ho). unfold final, trace; simpl.
    repeat split; auto.
Qed.

Lemma step_flushed (i : input) (c : Client) :
  flushed c -> flushed (final (step_of i c)).
Proof.
  unfold flushed. intros Hinv.
  destruct i.
  - unfold step. rewrite send_run. simpl.
    destruct (isOpen c && c_logged c) eqn:Hg; unfold final; simpl; intros H.
    + destruct c; reflexivity.
    + exfalso. destruct c; unfold isOpen in *; simpl in *. congruence.
  - unfold step. rewrite sendQueue_run.
    destruct (isOpen c && c_logged c) eqn:Hg; unfold final; simpl; intros H.
    + destruct c; reflexivity.
    + congruence.
  - unfold step, on, modify, final; simpl. destruct c; exact Hinv.
  - unfold step, end_, bind, get, ws_close, bind, emit, modify, final.
    destruct c as [[] lg ss cbs q pend dbg]; simpl in *; auto; discriminate.
  - unfold step, modify, final; simpl. destruct c; exact Hinv.
  - unfold step, modify, final; simpl. destruct c; exact Hinv.
  - rewrite step_open_run. destruct (c_logged c) eqn:Hl; unfold final; simpl; intros H.
    + destruct c; reflexivity.
    + exfalso. destruct c; unfold isOpen in *; simpl in *. subst.
      rewrite ?andb_false_r in H. discriminate.
  - unfold step, bind, modify. rewrite handleEvent_run. unfold final; simpl.
    destruct c; unfold isOpen; simpl. rewrite ?andb_false_r. discriminate.
  - unfold step. rewrite handleError_run. exact Hinv.
  - unfold step. destruct (parsePacket_ws str c) as [-> | H]; [exact Hinv|].
    intros Hg. apply closing_or_closed_not_open in H. rewrite H in Hg. discriminate.
  - rewrite step_resolved_run. simpl.
    destruct (isOpen c) eqn:Ho; unfold final; simpl; intros H.
    + destruct c; reflexivity.
    + exfalso. destruct c; simpl in *. unfold isOpen in *; simpl in *.
      rewrite Ho in H. discriminate.
  - rewrite step_rejected_run. unfold final; simpl. destruct c; exact Hinv.
Qed.

Lemma run_flushed (ins : list input) :
  forall c c' t, flushed c -> run_of ins c = Some (c', t) -> flushed c'.
Proof.
  induction ins as [|i ins IH]; intros c c' t Hinv Hrun; simpl in Hrun.
  - injection Hrun as <- <-. exact Hinv.
  - destruct (can_occur c i); [|discriminate].
    pose proof (step_flushed i c Hinv) as H1.
    destruct (step_of i c) as [[r c1] t1]. unfold final in *; simpl in *.
    destruct (run_of ins c1) as [[c2 t2]|] eqn:Hrest; [|discriminate].
    injection Hrun as <- <-. exact (IH c1 c2 t2 H1 Hrest).
Qed.

Lemma new_client_flushed (global_debug : bool) (clientOptions : ClientOptions) :
  flushed (final (new_client global_debug clientOptions)).
Proof.
  unfold flushed. rewrite constructor_run. simpl.
  destruct (truthy (token clientOptions)); unfold final; simpl; discriminate.
Qed.

(** X4.  Between inputs, that is at the end of any run of a constructed
    client, when none of its handlers is running, an open socket and a
    set authentication flag mean an empty queue.  Inside the open handler
    this is restored only at the end: the handler calls the [connected]
    observers first, with the queue as it stood, and writes the queue
    after them. *)
Theorem queue_empty_while_open_and_authenticated
    (global_debug : bool) (clientOptions : ClientOptions)
    (ins : list input) (c : Client) (t : list effect) :
  run_of ins (final (new_client global_debug clientOptions)) = Some (c, t) ->
  (isOpen c && c_logged c = true -> c_sendQueue c = [])
  /\ let r := step_of Ws_open c in
     trace r = dispatch c connected []
               ++ (if c_logged c then flat_map (flush_entry c) (c_sendQueue c) else [])
     /\ (isOpen (final r) && c_logged (final r) = true -> c_sendQueue (final r) = []).
Proof.
  intros Hrun.
  pose proof (run_flushed ins _ c t (new_client_flushed _ _) Hrun) as Hinv.
  split; [exact Hinv|]. split.
  - rewrite step_open_run. destruct (c_logged c); reflexivity.
  - exact (step_flushed Ws_open c Hinv).
Qed.

(** X5.  On a client that is open and authenticated, whatever state it is
    in, [send] writes at once: first what is still in the queue, in queue
    order, then the frame of its own packet, last; the queue is empty
    afterwards.  Between inputs the queue of such a client is empty, so
    that a [send] made then writes its own frame and nothing else; a
    [send] made by a [connected] observer finds the queue as it stood and
    writes that first. *)
Theorem send_is_immediate_once_authenticated (c : Client) (t p : value) :
  isOpen c && c_logged c = true ->
  let r := step_of (Call_send t p) c in
  outcome r = Normal tt
  /\ trace r = flat_map (flush_entry c) (c_sendQueue c ++ [send_frame formatWSPacket t p])
  /\ writes (trace r) = c_sendQueue c ++ [send_frame formatWSPacket t p]
  /\ c_sendQueue (final r) = []
  /\ (forall global_debug clientOptions ins t0,
        run_of ins (final (new_client global_debug clientOptions)) = Some (c, t0) ->
        writes (trace r) = [send_frame formatWSPacket t p]).
Proof.
  intros Hg r. subst r.
  unfold step. rewrite send_run. simpl. rewrite Hg.
  unfold outcome, final, trace; simpl.
  split; [reflexivity|]. split; [reflexivity|]. rewrite writes_flush.
  split; [reflexivity|]. split; [destruct c; reflexivity|].
  intros global_debug clientOptions ins t0 Hrun.
  rewrite (run_flushed ins _ c t0 (new_client_flushed _ _) Hrun Hg). reflexivity.
Qed.

(** X6.  The close event is final for the session: it dispatches
    [disconnected], turns the authentication flag off and keeps the queue;
    and unless a credential exchange is still pending, nothing turns the
    flag on again, so that at the end of any run that follows the queue
    holds what it held plus the frames of all later [send] calls, and
    nothing but pongs was written. *)
Theorem no_relogin_after_close
    (ins : list input) (c c' : Client) (t : list effect) :
  c_getUser_pending c = false ->
  run_of (Ws_close :: ins) c = Some (c', t) ->
  c_logged c' = false
  /\ c_sendQueue c' = c_sendQueue c ++ frames_of ins
  /\ Forall (is_pong formatWSPacket) (writes t)
  /\ exists t', t = dispatch c disconnected [] ++ t'.
Proof.
  intros Hp Hrun. simpl in Hrun.
  assert (Hstep : step_of Ws_close c
                  = (Normal tt, set_logged false (set_ws CLOSED c),
                     dispatch c disconnected [])).
  { unfold step, bind, modify. rewrite handleEvent_run. destruct c; reflexivity. }
  rewrite Hstep in Hrun.
  destruct (run_of ins _) as [[c2 t2]|] eqn:Hrest; [|discriminate].
  injection Hrun as <- <-.
  destruct (run_settled_unauthenticated formatWSPacket parseWSPacket ins
              (set_logged false (set_ws CLOSED c)) c2 t2) as (Hl & _ & Hq & Hw);
    [destruct c; reflexivity | destruct c; exact Hp | exact Hrest |].
  split; [exact Hl|]. split; [rewrite Hq; destruct c; reflexivity|]. split.
  - rewrite writes_app, writes_dispatch. exact Hw.
  - eauto.
Qed.

(** A step taken with the socket closing or closed, other than the
    socket opening. *)
Lemma step_down (i : input) (c : Client) :
  closing_or_closed c = true ->
  i <> Ws_open ->
  closing_or_closed (final (step_of i c)) = true
  /\ writes (trace (step_of i c)) = []
  /\ session_calls (trace (step_of i c)) = []
  /\ (forall ev, ev <> disconnected -> ev <> error -> ev <> event ->
                 dispatches ev (trace (step_of i c)) = []).
Proof.
  intros Hd Hi.
  pose proof (closing_or_closed_not_open c Hd) as Ho.
  assert (Hkeep : forall c1 : Client, c_ws c1 = c_ws c -> closing_or_closed c1 = true).
  { intros c1 H. unfold closing_or_closed in *. rewrite H. exact Hd. }
  destruct i; try congruence.
  - unfold step. rewrite send_run. simpl. rewrite Ho. simpl.
    unfold final, trace; simpl. split; [apply Hkeep; destruct c; reflexivity|]. auto.
  - unfold step. rewrite sendQueue_run, Ho. simpl.
    unfold final, trace; simpl. auto.
  - unfold step, on, modify, final, trace; simpl.
    split; [apply Hkeep; destruct c; reflexivity|]. auto.
  - unfold step, end_, bind, get, ws_close, bind, emit, modify, final, trace.
    unfold closing_or_closed in *.
    destruct c as [[] lg ss cbs q pend dbg]; simpl in *; try discriminate Hd; auto.
  - unfold step, modify, final, trace; simpl.
    split; [apply Hkeep; destruct c; reflexivity|]. auto.
  - unfold step, modify, final, trace; simpl.
    split; [apply Hkeep; destruct c; reflexivity|]. auto.
  - unfold step, bind, modify. rewrite handleEvent_run. unfold final, trace; simpl.
    rewrite writes_dispatch, session_calls_dispatch.
    split; [destruct c; reflexivity|]. split; [reflexivity|]. split; [reflexivity|].
    intros ev H1 H2 H3. apply dispatches_dispatch_other; auto.
  - unfold step. rewrite handleError_run. unfold final, trace; simpl.
    rewrite writes_report, session_calls_report.
    split; [exact Hd|]. split; [reflexivity|]. split; [reflexivity|].
    intros ev H1 H2 H3. apply dispatches_report_other; auto.
  - unfold step. rewrite (parsePacket_not_open str c Ho). unfold final, trace; simpl. auto.
  - rewrite step_resolved_run. simpl. rewrite Ho. unfold final, trace; simpl.
    split; [apply Hkeep; destruct c; reflexivity|]. auto.
  - rewrite step_rejected_run. unfold final, trace; simpl.
    rewrite writes_report, session_calls_report.
    split; [apply Hkeep; destruct c; reflexivity|]. split; [reflexivity|].
    split; [reflexivity|].
    intros ev H1 H2 H3.
    replace (report c) with (report (set_getUser_pending false c)) by (destruct c; reflexivity).
    apply dispatches_report_other; auto.
Qed.

Lemma run_down (ins : list input) :
  forall c c' t,
    closing_or_closed c = true ->
    timely ins c = true ->
    run_of ins c = Some (c', t) ->
    closing_or_closed c' = true
    /\ writes t = []
    /\ session_calls t = []
    /\ (forall ev, ev <> disconnected -> ev <> error -> ev <> event ->
                   dispatches ev t = []).
Proof.
  induction ins as [|i ins IH]; intros c c' t Hd Ht Hrun; simpl in Hrun, Ht.
  - injection Hrun as <- <-. auto.
  - destruct (can_occur c i); [|discriminate].
    apply andb_true_iff in Ht as [Hi Ht].
    assert (Hne : i <> Ws_open).
    { intros ->. apply bool_decide_eq_true in Hi.
      unfold closing_or_closed in Hd. rewrite Hi in Hd. discriminate. }
    destruct (step_down i c Hd Hne) as (Hd1 & Hw1 & Hs1 & He1).
    destruct (step_of i c) as [[r c1] t1]. unfold final, trace in *; simpl in *.
    destruct (run_of ins c1) as [[c2 t2]|] eqn:Hrest; [|discriminate].
    injection Hrun as <- <-.
    destruct (IH c1 c2 t2 Hd1 Ht Hrest) as (Hd2 & Hw2 & Hs2 & He2).
    split; [exact Hd2|].
    rewrite writes_app, session_calls_app, Hw1, Hw2, Hs1, Hs2.
    split; [reflexivity|]. split; [reflexivity|].
    intros ev H1 H2 H3. rewrite dispatches_app, He1, He2; auto.
Qed.

(** X7.  Once the socket is closing or closed, and as long as it keeps
    to opening only from the connecting state, the client is silent
    towards it and deaf to it: in any run that follows nothing is written
    to the socket, no session handler is called, and nothing is dispatched
    on any channel other than [disconnected] and [error] (and their
    mirror on the catch-all channel); the socket stays closing or closed. *)
Theorem silent_once_closing
    (ins : list input) (c c' : Client) (t : list effect) :
  closing_or_closed c = true ->
  timely ins c = true ->
  run_of ins c = Some (c', t) ->
  closing_or_closed c' = true
  /\ writes t = []
  /\ session_calls t = []
  /\ (forall ev, ev <> disconnected -> ev <> error -> ev <> event ->
                 dispatches ev t = []).
Proof. apply run_down. Qed.

Lemma head_app_some {A} (l1 l2 : list A) (x : A) :
  head l1 = Some x -> head (l1 ++ l2) = Some x.
Proof. destruct l1; [discriminate | auto]. Qed.

(** An anonymous client that has not written yet: still connecting,
    authenticated, the auth frame first in its queue. *)
Lemma run_connecting_anonymous (frame : string) (ins : list input) :
  forall c c' t,
    c_ws c = CONNECTING ->
    c_logged c = true ->
    c_getUser_pending c = false ->
    head (c_sendQueue c) = Some frame ->
    timely ins c = true ->
    run_of ins c = Some (c', t) ->
    writes t = [] \/ head (writes t) = Some frame.
Proof.
  induction ins as [|i ins IH]; intros c c' t Hws Hl Hp Hq Ht Hrun; simpl in Hrun, Ht.
  - injection Hrun as <- <-. left. reflexivity.
  - destruct (can_occur c i) eqn:Hc; [|discriminate].
    apply andb_true_iff in Ht as [_ Ht].
    assert (Ho : isOpen c = false) by (unfold isOpen; rewrite Hws; reflexivity).
    assert (Hsame : forall c1 t1,
               step_of i c = (Normal tt, c1, t1) ->
               c_ws c1 = CONNECTING -> c_logged c1 = true ->
               c_getUser_pending c1 = false ->
               head (c_sendQueue c1) = Some frame ->
               writes t1 = [] ->
               writes t = [] \/ head (writes t) = Some frame).
    { intros c1 t1 Hstep H1 H2 H3 H4 H5. rewrite Hstep in Hrun, Ht.
      unfold final in Ht; simpl in Ht.
      destruct (run_of ins c1) as [[c2 t2]|] eqn:Hrest; [|discriminate].
      injection Hrun as <- <-. rewrite writes_app, H5. simpl.
      exact (IH c1 c2 t2 H1 H2 H3 H4 Ht Hrest). }
    destruct i.
    + eapply Hsame.
      * unfold step. rewrite send_run. simpl. rewrite Ho. simpl. reflexivity.
      * destruct c; exact Hws.
      * destruct c; exact Hl.
      * destruct c; exact Hp.
      * destruct c; simpl in *. apply head_app_some. exact Hq.
      * reflexivity.
    + eapply Hsame; [unfold step; rewrite sendQueue_run, Ho; reflexivity | auto ..].
    + eapply Hsame; [unfold step, on, modify; reflexivity | destruct c; auto ..].
    + apply (Hsame c []); auto.
      unfold step, end_, bind, get. rewrite Hws. reflexivity.
    + eapply Hsame; [unfold step, modify; reflexivity | destruct c; auto ..].
    + eapply Hsame; [unfold step, modify; reflexivity | destruct c; auto ..].
    + rewrite step_open_run, Hl in Hrun.
      destruct (run_of ins _) as [[c2 t2]|] eqn:Hrest; [|discriminate].
      injection Hrun as <- <-. right.
      rewrite !writes_app, writes_dispatch, writes_flush. simpl.
      apply head_app_some. exact Hq.
    + assert (Hstep : step_of Ws_close c
                      = (Normal tt, set_logged false (set_ws CLOSED c),
                         dispatch c disconnected [])).
      { unfold step, bind, modify. rewrite handleEvent_run. destruct c; reflexivity. }
      rewrite Hstep in Hrun, Ht. unfold final in Ht; simpl in Ht.
      destruct (run_of ins _) as [[c2 t2]|] eqn:Hrest; [|discriminate].
      injection Hrun as <- <-. left.
      destruct (run_down ins (set_logged false (set_ws CLOSED c)) c2 t2) as (_ & Hw & _);
        [destruct c; reflexivity | exact Ht | exact Hrest |].
      rewrite writes_app, writes_dispatch, Hw. reflexivity.
    + eapply Hsame; [unfold step; rewrite handleError_run; reflexivity | auto ..].
      apply writes_report.
    + eapply Hsame;
        [unfold step; rewrite (parsePacket_not_open str c Ho); reflexivity | auto ..].
    + simpl in Hc. congruence.
    + simpl in Hc. congruence.
Qed.

(** X8.  A client constructed without a token speaks the auth frame
    first: in any run in which the socket opens only from the connecting
    state, the first packet written to the socket, if any is, is the
    frame [set_auth_token] with [unauthorized_user_token]. *)
Theorem anonymous_auth_frame_is_written_first
    (global_debug : bool) (clientOptions : ClientOptions)
    (ins : list input) (c : Client) (t : list effect) :
  truthy (token clientOptions) = false ->
  timely ins (final (new_client global_debug clientOptions)) = true ->
  run_of ins (final (new_client global_debug clientOptions)) = Some (c, t) ->
  writes t = []
  \/ head (writes t) = Some (auth_frame formatWSPacket (VStr "unauthorized_user_token")).
Proof.
  intros Htok Ht Hrun.
  refine (run_connecting_anonymous _ ins _ c t _ _ _ _ Ht Hrun);
    rewrite constructor_run; simpl; rewrite Htok; reflexivity.
Qed.

(** X9.  [end()] asks the socket to close unless the socket is still
    connecting.  On a connecting socket it does nothing at all: the
    connection goes on, and when the socket opens an authenticated client
    writes its queue as if [end()] had not been called.  In every other
    state it calls [close()] once and leaves the client not open. *)
Theorem end_closes_unless_connecting (c : Client) :
  let r := step_of Call_end c in
  outcome r = Normal tt
  /\ if decide (c_ws c = CONNECTING)
     then r = (Normal tt, c, [])
          /\ step_of Ws_open (final r) = step_of Ws_open c
          /\ writes (trace (step_of Ws_open (final r)))
             = (if c_logged c then c_sendQueue c else [])
     else trace r = [WsClose]
          /\ isOpen (final r) = false
          /\ final r = set_ws (match c_ws c with CLOSED => CLOSED | _ => CLOSING end) c.
Proof.
  intros r. subst r.
  destruct (decide (c_ws c = CONNECTING)) as [Hws|Hws].
  - assert (H : step_of Call_end c = (Normal tt, c, [])).
    { unfold step, end_, bind, get. rewrite Hws. reflexivity. }
    rewrite H. unfold outcome, final, trace; simpl.
    split; [reflexivity|]. split; [reflexivity|]. split; [reflexivity|].
    rewrite step_open_run. destruct (c_logged c); simpl;
      rewrite writes_app, writes_dispatch; [apply writes_flush | reflexivity].
  - unfold step, end_, bind, get, ws_close, bind, emit, modify, outcome, final, trace.
    destruct c as [[] lg ss cbs q pend dbg]; simpl in *; try congruence;
      repeat split; reflexivity.
Qed.

(** The "normal packet" block reads the client only through its registry. *)
Lemma deliver_reads_registry (packet : value) (c c0 : Client) :
  c_sessions c = c_sessions c0 ->
  deliver packet c
  = match deliver packet c0 with (r, _, t) => (r, c, t) end.
Proof.
  intros Hss.
  unfold deliver, bind, lift, get, throw, lift, ret, emit, sessions_lookup.
  destruct (member "m" packet) as [m|e]; [|reflexivity].
  destruct (member "p" packet) as [p|e]; [|reflexivity].
  destruct (truthy m && truthy p); [|reflexivity].
  destruct (element0 p) as [session|e]; [|reflexivity].
  destruct (truthy session); [|reflexivity].
  destruct (to_string session) as [key|e]; [|reflexivity].
  rewrite Hss.
  destruct (c_sessions c0 !! key) as [s|]; [reflexivity|].
  destruct (inherited_by_plain_object key); reflexivity.
Qed.




Lemma forEach_pings (ns : list Z) (c : Client) :
  forEach (map VNum ns) callback_of c
  = (Normal tt, c,
     flat_map (fun n => debug_line c [VStr debug_banner_packet; VNum n]
                        ++ WsSend (pong formatWSPacket n) :: dispatch c ping [VNum n]) ns).
Proof.
  induction ns as [|n ns IH]; [reflexivity|].
  simpl. unfold bind. rewrite callback_ping, IH. reflexivity.
Qed.

(** X11.  A batch of pings, safe integers all, received on an open
    socket is answered ping by ping, in the order received: the packets
    written are exactly the pongs of the batch in order, each with the
    payload [~h~] followed by the decimal numeral of its ping; each ping
    is dispatched on the ping channel in order, no session handler is
    called, and the client is unchanged. *)
Theorem ping_batch_answered_in_order (str : string) (ns : list Z) (c : Client) :
  Forall safe_integer ns ->
  parseWSPacket str = map VNum ns ->
  isOpen c = true ->
  let r := parse_of str c in
  outcome r = Normal tt
  /\ final r = c
  /\ writes (trace r) = map (pong formatWSPacket) ns
  /\ Forall2 (fun n packet =>
                forall numeral,
                  Decimal.read numeral = Some n ->
                  packet = formatWSPacket (VStr ("~h~" +:+ numeral)))
             ns (writes (trace r))
  /\ dispatches ping (trace r)
     = flat_map (fun n => map (fun cb => (cb, [VNum n])) (c_callbacks c ping)) ns
  /\ session_calls (trace r) = [].
Proof.
  intros _ Hparse Ho r. subst r.
  unfold parsePacket, bind, get. rewrite Ho, Hparse. simpl.
  rewrite forEach_pings. unfold outcome, final, trace; simpl.
  split; [reflexivity|]. split; [reflexivity|].
  clear Hparse Ho.
  assert (H : writes (flat_map (fun n => debug_line c [VStr debug_banner_packet; VNum n]
                                         ++ WsSend (pong formatWSPacket n)
                                            :: dispatch c ping [VNum n]) ns)
              = map (pong formatWSPacket) ns
              /\ dispatches ping
                   (flat_map (fun n => debug_line c [VStr debug_banner_packet; VNum n]
                                       ++ WsSend (pong formatWSPacket n)
                                          :: dispatch c ping [VNum n]) ns)
                 = flat_map (fun n => map (fun cb => (cb, [VNum n])) (c_callbacks c ping)) ns
              /\ session_calls
                   (flat_map (fun n => debug_line c [VStr debug_banner_packet; VNum n]
                                       ++ WsSend (pong formatWSPacket n)
                                          :: dispatch c ping [VNum n]) ns)
                 = []).
  { induction ns as [|n ns IH]; [repeat split; reflexivity|].
    destruct IH as (Hw & Hd & Hs). simpl.
    rewrite !writes_app, !dispatches_app, !session_calls_app.
    rewrite writes_debug_line, dispatches_debug_line, session_calls_debug_line.
    rewrite writes_send, dispatches_send, session_calls_send.
    rewrite writes_dispatch, session_calls_dispatch, Hw, Hd, Hs.
    rewrite dispatches_dispatch_same by discriminate.
    repeat split; reflexivity. }
  destruct H as (Hw & Hd & Hs).
  split; [exact Hw|]. split; [|split; [exact Hd | exact Hs]].
  rewrite Hw. clear. induction ns as [|n ns IH]; constructor; [|exact IH].
  intros numeral Hread. rewrite (read_unique numeral n Hread). reflexivity.
Qed.

(** X12.  How registration and dispatch compose.  After an observer is
    registered on channel [ev], a dispatch on channel [ev'] calls the
    earlier observers of [ev'] in their order, then the new observer if
    [ev'] is its channel; then it calls the earlier catch-all observers
    with the name of [ev'] in front of the arguments, then the new
    observer if it was registered on the catch-all channel.  Nothing else
    is called and the client is unchanged. *)
Theorem registration_then_dispatch
    (c : Client) (ev ev' : ClientEvent) (cb : callback) (args : list value) :
  let c' := final (on ev cb c) in
  handleEvent ev' args c'
  = (Normal tt, c',
     map (fun e => Notify ev' e args) (c_callbacks c ev')
     ++ (if decide (ev' = ev) then [Notify ev' cb args] else [])
     ++ map (fun e => Notify event e (VStr (ClientEvent_name ev') :: args))
            (c_callbacks c event)
     ++ (if decide (event = ev)
         then [Notify event cb (VStr (ClientEvent_name ev') :: args)] else [])).
Proof.
  intros c'. subst c'. rewrite handleEvent_run. f_equal.
  unfold dispatch, on, modify, final; simpl.
  destruct (decide (ev' = ev)); destruct (decide (event = ev));
    rewrite ?map_app, ?app_nil_r, <- ?app_assoc; reflexivity.
Qed.

Lemma dispatches_flush ev (c : Client) (q : list string) :
  dispatches ev (flat_map (flush_entry c) q) = [].
Proof.
  induction q as [|p q IH]; [reflexivity|].
  simpl. unfold flush_entry at 1. simpl.
  rewrite dispatches_send, dispatches_app, dispatches_debug_line. exact IH.
Qed.

(** Routing on an authenticated client dispatches nothing on the logged
    channel, and leaves the client authenticated. *)
Lemma callback_authenticated (packet : value) (c : Client) :
  c_logged c = true ->
  c_logged (final (callback_of packet c)) = true
  /\ dispatches logged (trace (callback_of packet c)) = [].
Proof.
  intros Hl.
  destruct (callback_cases formatWSPacket packet c) as
    [(n & -> & H) | [(p & H) | [(key & s & parsed & H) | [H | (e & H)]]]];
    rewrite H; unfold final, trace; simpl;
    rewrite ?dispatches_app, ?dispatches_debug_line; simpl.
  - split; [exact Hl|]. rewrite dispatches_send.
    apply dispatches_dispatch_other; discriminate.
  - split; [destruct c; exact Hl|].
    rewrite dispatches_report_other by discriminate. reflexivity.
  - split; [exact Hl | reflexivity].
  - split; [exact Hl|]. rewrite Hl. apply dispatches_dispatch_other; discriminate.
  - split; [exact Hl | reflexivity].
Qed.

Lemma forEach_callback_authenticated (batch : list value) :
  forall c,
    c_logged c = true ->
    dispatches logged (trace (forEach batch callback_of c)) = [].
Proof.
  induction batch as [|packet batch IH]; intros c Hl; [reflexivity|].
  simpl. unfold bind.
  destruct (callback_authenticated packet c Hl) as [Hl1 Hd1].
  destruct (callback_of packet c) as [[[[]|e] c1] t1]; unfold final, trace in *; simpl in *.
  - specialize (IH c1 Hl1).
    destruct (forEach batch callback_of c1) as [[r c2] t2]; simpl in *.
    rewrite dispatches_app, Hd1, IH. reflexivity.
  - exact Hd1.
Qed.

(** A step of a client that is authenticated with no exchange pending,
    or whose socket is closing or closed. *)
Lemma step_never_logged (i : input) (c : Client) :
  c_getUser_pending c = false ->
  closing_or_closed c = true \/ c_logged c = true ->
  (i = Ws_open -> c_ws c = CONNECTING) ->
  (closing_or_closed (final (step_of i c)) = true \/ c_logged (final (step_of i c)) = true)
  /\ dispatches logged (trace (step_of i c)) = [].
Proof.
  intros Hp [Hd | Hl] Hopen.
  { assert (Hne : i <> Ws_open).
    { intros ->. specialize (Hopen eq_refl). unfold closing_or_closed in Hd.
      rewrite Hopen in Hd. discriminate. }
    destruct (step_down i c Hd Hne) as (Hd1 & _ & _ & He). split; [left; exact Hd1|].
    apply He; discriminate. }
  destruct i.
  - unfold step. rewrite send_run. simpl.
    destruct (isOpen c && c_logged c); unfold final, trace; simpl.
    + split; [right; destruct c; exact Hl | apply dispatches_flush].
    + split; [right; destruct c; exact Hl | reflexivity].
  - unfold step. rewrite sendQueue_run.
    destruct (isOpen c && c_logged c); unfold final, trace; simpl.
    + split; [right; destruct c; exact Hl | apply dispatches_flush].
    + split; [right; exact Hl | reflexivity].
  - unfold step, on, modify, final, trace; simpl.
    split; [right; destruct c; exact Hl | reflexivity].
  - unfold step, end_, bind, get, ws_close, bind, emit, modify, final, trace.
    destruct c as [[] lg ss cbs q pend dbg]; simpl in *; auto.
  - unfold step, modify, final, trace; simpl.
    split; [right; destruct c; exact Hl | reflexivity].
  - unfold step, modify, final, trace; simpl.
    split; [right; destruct c; exact Hl | reflexivity].
  - rewrite step_open_run, Hl. unfold final, trace; simpl.
    split; [right; destruct c; exact Hl|].
    rewrite dispatches_app, dispatches_flush, app_nil_r.
    apply dispatches_dispatch_other; discriminate.
  - unfold step, bind, modify. rewrite handleEvent_run. unfold final, trace; simpl.
    split; [left; destruct c; reflexivity|].
    apply dispatches_dispatch_other; discriminate.
  - unfold step. rewrite handleError_run. unfold final, trace; simpl.
    split; [right; exact Hl|]. apply dispatches_report_other; discriminate.
  - unfold step. split.
    + destruct (parsePacket_ws str c) as [-> | H]; auto.
    + unfold parsePacket, bind, get. destruct (isOpen c); simpl; [|reflexivity].
      pose proof (forEach_callback_authenticated (parseWSPacket str) c Hl) as H.
      destruct (forEach (parseWSPacket str) callback_of c) as [[r c2] t2].
      exact H.
  - rewrite step_resolved_run. simpl.
    destruct (isOpen c); unfold final, trace; simpl.
    + split; [right; destruct c; reflexivity|].
      apply (dispatches_flush logged c (auth_frame formatWSPacket authToken :: c_sendQueue c)).
    + split; [right; destruct c; reflexivity | reflexivity].
  - rewrite step_rejected_run. unfold final, trace; simpl.
    split; [right; destruct c; exact Hl|].
    apply dispatches_report_other; discriminate.
Qed.

Lemma run_never_logged (ins : list input) :
  forall c c' t,
    c_getUser_pending c = false ->
    closing_or_closed c = true \/ c_logged c = true ->
    timely ins c = true ->
    run_of ins c = Some (c', t) ->
    dispatches logged t = [].
Proof.
  induction ins as [|i ins IH]; intros c c' t Hp Hinv Ht Hrun; simpl in Hrun, Ht.
  - injection Hrun as <- <-. reflexivity.
  - destruct (can_occur c i); [|discriminate].
    apply andb_true_iff in Ht as [Hi Ht].
    assert (Hopen : i = Ws_open -> c_ws c = CONNECTING).
    { intros ->. apply bool_decide_eq_true in Hi. exact Hi. }
    destruct (step_never_logged i c Hp Hinv Hopen) as [Hinv1 Hd1].
    pose proof (step_pending formatWSPacket parseWSPacket i c) as Hp1.
    destruct (step_of i c) as [[r c1] t1]. unfold final, trace in *; simpl in *.
    destruct (run_of ins c1) as [[c2 t2]|] eqn:Hrest; [|discriminate].
    injection Hrun as <- <-.
    assert (Hp1' : c_getUser_pending c1 = false).
    { rewrite Hp1, Hp. destruct (settles i); reflexivity. }
    rewrite dispatches_app, Hd1. simpl.
    exact (IH c1 c2 t2 Hp1' Hinv1 Ht Hrest).
Qed.

(** X13.  A client constructed without a token never dispatches on the
    logged channel: it is authenticated from the constructor on, so no
    inbound packet is ever taken for the login acknowledgement, and the
    observers registered with [onLogged] are never called (in any run in
    which the socket opens only from the connecting state). *)
Theorem anonymous_client_never_dispatches_logged
    (global_debug : bool) (clientOptions : ClientOptions)
    (ins : list input) (c : Client) (t : list effect) :
  truthy (token clientOptions) = false ->
  timely ins (final (new_client global_debug clientOptions)) = true ->
  run_of ins (final (new_client global_debug clientOptions)) = Some (c, t) ->
  dispatches logged t = [].
Proof.
  intros Htok Ht Hrun.
  refine (run_never_logged ins _ c t _ _ Ht Hrun);
    rewrite constructor_run; simpl; rewrite Htok; [reflexivity | right; reflexivity].
Qed.

End Lifecycle.

(** ** The debug switch *)

Section Debugging.

Variable formatWSPacket : value -> string.
Variable parseWSPacket : string -> list value.

Lemma quiet_app (t1 t2 : list effect) : quiet (t1 ++ t2) = quiet t1 ++ quiet t2.
Proof. unfold quiet. apply omap_app. Qed.

Lemma transparent_ret {A} (a : A) : debug_transparent (ret a).
Proof. intros c. reflexivity. Qed.

Lemma transparent_lift {A} (r : completion A) : debug_transparent (lift r).
Proof. intros c. reflexivity. Qed.

Lemma transparent_emit (e : effect) :
  match e with ConsoleDebug _ => False | _ => True end ->
  debug_transparent (emit e).
Proof. intros He c. destruct e; try contradiction; reflexivity. Qed.

Lemma transparent_modify (f : Client -> Client) :
  (forall c, f (mute c) = mute (f c)) -> debug_transparent (modify f).
Proof. intros Hf c. unfold modify, outcome, final, trace; simpl. rewrite Hf. reflexivity. Qed.

Lemma transparent_bind {A B} (m : M A) (f : A -> M B) :
  debug_transparent m -> (forall a, debug_transparent (f a)) ->
  debug_transparent (bind m f).
Proof.
  intros Hm Hf c. unfold bind. rewrite Hm.
  destruct (m c) as [[[a|e] c1] t1]; unfold outcome, final, trace; simpl; [|reflexivity].
  rewrite Hf. destruct (f a c1) as [[r c2] t2]; unfold outcome, final, trace; simpl.
  rewrite quiet_app. reflexivity.
Qed.

(** Reading the client is harmless when what is done next does not depend
    on the switch. *)
Lemma transparent_get {B} (k : Client -> M B) :
  (forall c, k (mute c) = k c) -> (forall c, debug_transparent (k c)) ->
  debug_transparent (bind get k).
Proof.
  intros Hk Ht c. unfold bind, get. rewrite Hk, (Ht c c).
  destruct (k c c) as [[r c2] t2]; reflexivity.
Qed.

Lemma transparent_forEach {A} (l : list A) (f : A -> M unit) :
  (forall x, debug_transparent (f x)) -> debug_transparent (forEach l f).
Proof.
  intros Hf. induction l as [|x l IH]; [apply transparent_ret|].
  simpl. apply transparent_bind; auto.
Qed.

Lemma transparent_debug (args : list value) : debug_transparent (debug args).
Proof.
  intros c. rewrite !debug_run. unfold outcome, final, trace, debug_line; simpl.
  destruct c as [ws lg ss cbs q pend []]; reflexivity.
Qed.

Create HintDb transparency.

#[local] Hint Resolve transparent_ret transparent_lift transparent_debug : transparency.
#[local] Hint Extern 1 (debug_transparent (emit _)) =>
  apply transparent_emit; exact I : transparency.
#[local] Hint Extern 1 (debug_transparent (modify _)) =>
  apply transparent_modify; intros []; reflexivity : transparency.
#[local] Hint Extern 2 (debug_transparent (bind get _)) =>
  apply transparent_get; [intros []; reflexivity | intros ?] : transparency.
#[local] Hint Extern 3 (debug_transparent (bind _ _)) =>
  apply transparent_bind; [|intros ?] : transparency.
#[local] Hint Extern 1 (debug_transparent (forEach _ _)) =>
  apply transparent_forEach; intros ? : transparency.
#[local] Hint Extern 1 (debug_transparent (throw _)) =>
  apply transparent_lift : transparency.
#[local] Hint Extern 1 (debug_transparent (ws_send _)) =>
  unfold ws_send : transparency.
#[local] Hint Extern 1 (debug_transparent (when _ _)) =>
  unfold when : transparency.
#[local] Hint Extern 4 (debug_transparent (if ?b then _ else _)) =>
  destruct b : transparency.
#[local] Hint Extern 4 (debug_transparent (match ?x with _ => _ end)) =>
  destruct x : transparency.

Ltac transparency := eauto 30 with transparency.

Lemma transparent_handleEvent (ev : ClientEvent) (args : list value) :
  debug_transparent (handleEvent ev args).
Proof. unfold handleEvent. transparency. Qed.

Lemma transparent_handleError (msgs : list value) :
  debug_transparent (handleError msgs).
Proof.
  pose proof transparent_handleEvent. unfold handleError. transparency.
Qed.

Lemma transparent_ws_close : debug_transparent ws_close.
Proof. unfold ws_close. transparency. Qed.

Lemma transparent_sendQueue_loop (turns : nat) :
  debug_transparent (sendQueue_loop turns).
Proof.
  induction turns as [|turns IH]; simpl; transparency.
Qed.

Lemma transparent_sendQueue : debug_transparent sendQueue.
Proof.
  pose proof transparent_sendQueue_loop. unfold sendQueue. transparency.
Qed.

Lemma transparent_deliver (packet : value) : debug_transparent (deliver packet).
Proof. unfold deliver. transparency. Qed.

Lemma transparent_callback (packet : value) :
  debug_transparent (parsePacket_callback formatWSPacket packet).
Proof.
  pose proof transparent_handleEvent. pose proof transparent_handleError.
  pose proof transparent_ws_close. pose proof transparent_deliver.
  unfold parsePacket_callback.
  apply transparent_bind; [transparency | intros _].
  destruct packet; transparency.
Qed.

Lemma transparent_parsePacket (str : string) :
  debug_transparent (parsePacket formatWSPacket parseWSPacket str).
Proof.
  pose proof transparent_callback. unfold parsePacket. transparency.
Qed.

(** X14.  The debug switch changes nothing but the debug output.  Take
    any input in any state: handled with the switch off, it ends the same
    way (normally or with the same exception), in the same state, and the
    trace is the same with the [console.debug] lines left out: the same
    socket writes, observer and session handler calls and error reports,
    in the same order. *)
Theorem debug_switch_only_adds_debug_lines (i : input) (c : Client) :
  let r := step formatWSPacket parseWSPacket i c in
  step formatWSPacket parseWSPacket i (mute c)
  = (outcome r, mute (final r), quiet (trace r)).
Proof.
  intros r. subst r. revert c. change (debug_transparent (step formatWSPacket parseWSPacket i)).
  pose proof transparent_handleEvent. pose proof transparent_handleError.
  pose proof transparent_ws_close. pose proof transparent_sendQueue.
  pose proof transparent_parsePacket.
  destruct i; unfold step, send, enqueue_auth, end_, on; transparency.
Qed.

End Debugging.

(** ** Sample runs for the statements above *)

Lemma observers_only_grow_witness :
  let ins := [Call_on data 8; Ws_message "~m~1~m~1"; Call_on error 10; Call_on data 9] in
  exists c t,
    run Protocol.formatWSPacket (Protocol.decodes_to [VNum 1]) ins Sample.client
    = Some (c, t)
    /\ c_callbacks c data = [5; 8; 9].
Proof.
  intros ins. eexists. eexists. split; [reflexivity|].
  exact (observers_only_grow Protocol.formatWSPacket (Protocol.decodes_to [VNum 1])
           ins Sample.client _ _ data eq_refl).
Defined.

Lemma registry_changes_only_through_bridge_witness :
  let ins := [Sessions_set "cs_2" (mkSession chart 200);
              Ws_message "";
              Ws_close;
              Sessions_delete "qs_1"] in
  exists c t,
    run Protocol.formatWSPacket (Protocol.decodes_to [Sample.protocol_error]) ins
        Sample.client
    = Some (c, t)
    /\ c_sessions c = delete "qs_1" (<["cs_2" := mkSession chart 200]> (c_sessions Sample.client)).
Proof.
  intros ins. eexists. eexists. split; [reflexivity|].
  exact (registry_changes_only_through_bridge Protocol.formatWSPacket
           (Protocol.decodes_to [Sample.protocol_error]) ins Sample.client _ _ eq_refl).
Defined.

Lemma queue_empty_while_open_and_authenticated_witness :
  let fmt := Protocol.formatWSPacket in
  let parse := Protocol.decodes_to [] in
  let sent := [Call_send (VStr "set_locale") (VArr [VStr "en"; VStr "US"]); Ws_open;
               Call_send (VStr "quote_create_session") (VArr [VStr "qs_1"])] in
  (exists c t,
     run fmt parse sent (final (constructor fmt false Sample.anonymous)) = Some (c, t)
     /\ isOpen c && c_logged c = true
     /\ c_sendQueue c = [])
  /\ (exists c t,
        run fmt parse [Call_on connected 1]
            (final (constructor fmt false Sample.anonymous)) = Some (c, t)
        /\ trace (step fmt parse Ws_open c)
           = [Notify connected 1 [];
              WsSend (auth_frame fmt (VStr "unauthorized_user_token"))]).
Proof.
  intros fmt parse sent. split.
  - eexists. eexists. split; [reflexivity|]. split; [reflexivity|].
    exact (proj1 (queue_empty_while_open_and_authenticated fmt parse false
                    Sample.anonymous sent _ _ eq_refl) eq_refl).
  - eexists. eexists. split; [reflexivity|].
    exact (proj1 (proj2 (queue_empty_while_open_and_authenticated fmt parse false
                           Sample.anonymous [Call_on connected 1] _ _ eq_refl))).
Defined.

(** The state in which the [connected] observers of an anonymous client
    run: open, authenticated, the auth frame still queued. *)
Lemma send_is_immediate_once_authenticated_witness :
  let fmt := Protocol.formatWSPacket in
  let parse := Protocol.decodes_to [] in
  let c := set_ws OPEN (final (constructor fmt false Sample.anonymous)) in
  let t := VStr "quote_create_session" in
  let p := VArr [VStr "qs_1"] in
  let r := step fmt parse (Call_send t p) c in
  isOpen c && c_logged c = true
  /\ writes (trace r)
     = [auth_frame fmt (VStr "unauthorized_user_token"); send_frame fmt t p]
  /\ c_sendQueue (final r) = [].
Proof.
  intros fmt parse c t p r. split; [reflexivity|].
  destruct (send_is_immediate_once_authenticated fmt parse c t p eq_refl)
    as (_ & _ & Hw & Hq & _).
  split; [exact Hw | exact Hq].
Defined.

Lemma no_relogin_after_close_witness :
  let fmt := Protocol.formatWSPacket in
  let parse := Protocol.decodes_to [Sample.qsd] in
  let ins := [Call_send (VStr "quote_create_session") (VArr [VStr "qs_1"]);
              Ws_message "";
              Call_sendQueue] in
  exists c t,
    run fmt parse (Ws_close :: ins) Sample.client = Some (c, t)
    /\ c_logged c = false
    /\ c_sendQueue c = c_sendQueue Sample.client ++ sent_frames fmt ins
    /\ Forall (is_pong fmt) (writes t)
    /\ exists t', t = dispatch Sample.client disconnected [] ++ t'.
Proof.
  intros fmt parse ins. eexists. eexists. split; [reflexivity|].
  exact (no_relogin_after_close fmt parse ins Sample.client _ _ eq_refl eq_refl).
Defined.

Lemma silent_once_closing_witness :
  let fmt := Protocol.formatWSPacket in
  let parse := Protocol.decodes_to [Sample.qsd; VNum 7] in
  let ins := [Call_send (VStr "quote_create_session") (VArr [VStr "qs_1"]);
              Ws_message "";
              Ws_close; Call_end] in
  exists c t,
    run fmt parse ins (set_ws CLOSING Sample.client) = Some (c, t)
    /\ closing_or_closed c = true
    /\ writes t = []
    /\ session_calls t = []
    /\ (forall ev, ev <> disconnected -> ev <> error -> ev <> event ->
                   dispatches ev t = []).
Proof.
  intros fmt parse ins. eexists. eexists. split; [reflexivity|].
  exact (silent_once_closing fmt parse ins (set_ws CLOSING Sample.client) _ _
           eq_refl eq_refl eq_refl).
Defined.

Lemma anonymous_auth_frame_is_written_first_witness :
  let fmt := Protocol.formatWSPacket in
  let parse := Protocol.decodes_to [VNum 1] in
  let ins := [Call_send (VStr "set_locale") (VArr [VStr "en"; VStr "US"]); Ws_open;
              Ws_message "~m~1~m~1"] in
  exists c t,
    run fmt parse ins (final (constructor fmt false Sample.anonymous)) = Some (c, t)
    /\ writes t <> []
    /\ (writes t = []
        \/ head (writes t) = Some (auth_frame fmt (VStr "unauthorized_user_token"))).
Proof.
  intros fmt parse ins. eexists. eexists. split; [reflexivity|].
  split; [discriminate|].
  exact (anonymous_auth_frame_is_written_first fmt parse false Sample.anonymous ins _ _
           eq_refl eq_refl eq_refl).
Defined.


Lemma ping_batch_answered_in_order_witness :
  let fmt := Protocol.formatWSPacket in
  let parse := Protocol.decodes_to (map VNum [1; 2; 3]%Z) in
  let r := parsePacket fmt parse "~m~1~m~1~m~1~m~2~m~1~m~3" Sample.client in
  Forall safe_integer [1; 2; 3]%Z
  /\ outcome r = Normal tt
  /\ final r = Sample.client
  /\ writes (trace r) = ["~m~4~m~~h~1"; "~m~4~m~~h~2"; "~m~4~m~~h~3"]
  /\ dispatches ping (trace r) = [(4, [VNum 1]); (4, [VNum 2]); (4, [VNum 3])]
  /\ session_calls (trace r) = [].
Proof.
  intros fmt parse r.
  assert (Hs : Forall safe_integer [1; 2; 3]%Z)
    by (repeat constructor; unfold safe_integer; lia).
  split; [exact Hs|].
  destruct (ping_batch_answered_in_order Protocol.formatWSPacket
              (Protocol.decodes_to (map VNum [1; 2; 3]%Z))
              "~m~1~m~1~m~1~m~2~m~1~m~3" [1; 2; 3]%Z Sample.client Hs eq_refl eq_refl)
    as (Ho & Hf & Hw & _ & Hd & Hc).
  repeat split; assumption.
Defined.

Lemma anonymous_client_never_dispatches_logged_witness :
  let fmt := Protocol.formatWSPacket in
  let parse := Protocol.decodes_to [Sample.unrouted] in
  let ins := [Call_on logged 3; Call_on data 5; Ws_open; Ws_message ""] in
  exists c t,
    run fmt parse ins (final (constructor fmt false Sample.anonymous)) = Some (c, t)
    /\ dispatches data t = [(5, [Sample.unrouted])]
    /\ dispatches logged t = [].
Proof.
  intros fmt parse ins. eexists. eexists. split; [reflexivity|].
  split; [reflexivity|].
  exact (anonymous_client_never_dispatches_logged fmt parse false Sample.anonymous ins _ _
           eq_refl eq_refl eq_refl).
Defined.
